(** * World Bank dashboard: a shallow embedding of [dashboard.py]

    The script fetches three World Bank indicators (or reads them back from
    a pickle cache), reshapes the table, and serves two linked charts whose
    contents are recomputed by [update_figures] on every click.

    Pandas, numpy, wbdata and plotly are external collaborators.  Their
    operations appear here either as small executable definitions that follow
    the documented behaviour ([isin], [head], [rename]) or, where the result
    depends on data or algorithms outside the repository (the pickle format,
    the date parser, numpy's default sort), as interfaces with laws. *)

From Stdlib Require Import QArith ZArith List Ascii String Permutation Sorted Lia.
From stdpp Require Import base option list strings gmap sorting.

Open Scope string_scope.
Open Scope list_scope.

(** ** Python values and exceptions *)

Inductive error :=
| KeyError          (* missing label: [df.loc[0, ...]], [pt['customdata']], a column *)
| IndexError        (* [customdata[0]] on an empty list *)
| AttributeError    (* [x.get] on something that is not a dict *)
| ValueError        (* [pd.to_datetime] on text that is not a date; a column
                       name plotly or [sort_values] cannot use *)
| TypeError         (* plotly grouping on a cell that cannot be hashed *)
| DuplicateError    (* plotly given a frame with a repeated column label *)
| UnpicklingError   (* [pd.read_pickle] on a corrupt file *)
| NetworkError.     (* [wbdata.get_dataframe] failing *)

Inductive result (A : Type) : Type :=
| Ok (a : A)
| Raise (e : error).
Arguments Ok {A} a.
Arguments Raise {A} e.

#[global] Instance result_ret : MRet result := fun A a => Ok a.
#[global] Instance result_bind : MBind result := fun A B k r =>
  match r with
  | Ok a => k a
  | Raise e => Raise e
  end.

(** [[f(x) for x in l]]: the first exception aborts the whole traversal. *)
Fixpoint traverse {A B} (f : A -> result B) (l : list A) : result (list B) :=
  match l with
  | [] => Ok []
  | x :: l' => y ← f x; ys ← traverse f l'; Ok (y :: ys)
  end.

(** A cell of an object column: text, a dict with text entries, or [None]. *)
Inductive cell :=
| Str (s : string)
| Dict (d : gmap string string)
| PyNone.

#[global] Instance cell_eq_dec : EqDecision cell.
Proof. solve_decision. Defined.

Definition is_dict (c : cell) : bool :=
  match c with Dict _ => true | _ => false end.

(** [x.get(k)] as the lambdas of the normaliser call it. *)
Definition get (k : string) (x : cell) : result cell :=
  match x with
  | Dict d => Ok (match d !! k with Some s => Str s | None => PyNone end)
  | _ => Raise AttributeError
  end.

(** A numeric cell: [None] is NaN, the missing observation. *)
Definition num := option Q.

Record datetime := { dt_year : Z; dt_month : Z; dt_day : Z }.

(** ** Module constants *)

Definition cache_file : string := "wbdata_cache.pkl".
Definition start_year : Z := 2000.
Definition end_year : Z := 2020.
Definition data_date : datetime * datetime :=
  ({| dt_year := start_year; dt_month := 1; dt_day := 1 |},
   {| dt_year := end_year; dt_month := 1; dt_day := 1 |}).

Definition GDP : string := "GDP per capita (current US$)".
Definition LIFE : string := "Life expectancy at birth (years)".
Definition WATER : string := "Access to clean water (% pop)".

Definition indicators : gmap string string :=
  <["NY.GDP.PCAP.CD" := GDP]>
  (<["SP.DYN.LE00.IN" := LIFE]>
  (<["SH.H2O.SMDW.ZS" := WATER]> ∅)).

(** ** Tables *)

(** The fetched table: a frame indexed by (country, date) with one numeric
    column per entry of [raw_columns].  [raw_rows] lists the index entries
    with their cells in row order, which is what [reset_index] turns into
    rows 0, 1, 2, ... with a [country] and a [date] column. *)
Record RawRow := {
  r_country : cell;
  r_date : string;
  r_data : list num
}.

Record RawFrame := {
  raw_columns : list string;
  raw_rows : list RawRow
}.

(** The observation table held in the module-level [df].  [columns] names
    the numeric columns, whose cells a row keeps in [data]; the columns the
    script itself adds or reads by a fixed name are fields of the row. *)
Record Row := {
  country : cell;
  date : string;
  data : list num;
  iso2 : cell;
  country_name : cell;
  Year : Z
}.

Record Frame := {
  columns : list string;
  rows : list Row
}.

(** ** Fetcher and cache *)

Record request := {
  req_indicators : gmap string string;
  req_date : datetime * datetime
}.

(** [wbdata.get_dataframe(indicators, date=data_date)] *)
Definition the_request : request :=
  {| req_indicators := indicators; req_date := data_date |}.

(** [to_pickle] and [read_pickle]: the format is pandas' own business; all
    that is known of it is that what was written reads back. *)
Class Pickle (blob : Type) := {
  to_pickle : RawFrame -> blob;
  read_pickle : blob -> result RawFrame;
  read_to_pickle : forall t, read_pickle (to_pickle t) = Ok t
}.

(** The process's surroundings: the files on disk and the log of requests
    sent to the World Bank. *)
Record world (blob : Type) := {
  fs : gmap string blob;
  sent : list request
}.
Arguments fs {blob} w.
Arguments sent {blob} w.

Section Load.
Context {blob : Type} `{Pickle blob}.

(** What the World Bank answers to a request. *)
Variable get_dataframe : request -> result RawFrame.

(** Lines 224-230 (and 20-26): the returned value is [raw_df]. *)
Definition load (w : world blob) : result RawFrame * world blob :=
  match fs w !! cache_file with
  | Some b => (read_pickle b, w)
  | None =>
      let w1 := {| fs := fs w; sent := sent w ++ [the_request] |} in
      match get_dataframe the_request with
      | Ok raw_df =>
          (Ok raw_df,
           {| fs := <[cache_file := to_pickle raw_df]> (fs w1); sent := sent w1 |})
      | Raise e => (Raise e, w1)
      end
  end.
End Load.

(** ** Shape normaliser *)

(** [df.rename(columns=indicators)]: labels that are keys of the mapping are
    replaced, all others are kept. *)
Definition rename (m : gmap string string) (cols : list string) : list string :=
  map (fun c => default c (m !! c)) cols.

Definition mk_row (r : RawRow) (code name : cell) (y : Z) : Row :=
  {| country := r_country r; date := r_date r; data := r_data r;
     iso2 := code; country_name := name; Year := y |}.

Fixpoint assemble (rs : list RawRow) (codes names : list cell) (ys : list Z)
  : list Row :=
  match rs, codes, names, ys with
  | r :: rs', c :: codes', n :: names', y :: ys' =>
      mk_row r c n y :: assemble rs' codes' names' ys'
  | _, _, _, _ => []
  end.

Section Normalize.
(** [pd.to_datetime] on one entry of the date column; [None] when pandas
    rejects the text. *)
Variable to_datetime : string -> option datetime.

Definition to_year (s : string) : result Z :=
  match to_datetime s with
  | Some d => Ok (dt_year d)
  | None => Raise ValueError
  end.

(** [df.loc[0, 'country']] after [reset_index]. *)
Definition loc0_country (rs : list RawRow) : result cell :=
  match rs with
  | r :: _ => Ok (r_country r)
  | [] => Raise KeyError
  end.

(** Lines 233-244. *)
Definition normalize (raw_df : RawFrame) : result Frame :=
  let df := raw_rows raw_df in
  first ← loc0_country df;
  cols ← (if is_dict first then
            codes ← traverse (fun r => get "id" (r_country r)) df;
            names ← traverse (fun r => get "value" (r_country r)) df;
            Ok (codes, names)
          else
            Ok (map r_country df, map r_country df));
  years ← traverse (fun r => to_year (r_date r)) df;
  Ok {| columns := rename indicators (raw_columns raw_df);
        rows := assemble df (fst cols) (snd cols) years |}.
End Normalize.

(** ** Module start-up *)

Section Startup.
Context {blob : Type} `{Pickle blob}.
Variable get_dataframe : request -> result RawFrame.
Variable to_datetime : string -> option datetime.

(** One copy of the pipeline: load, then normalise whatever was loaded. *)
Definition pipeline (w : world blob) : result Frame * world blob :=
  let (raw_df, w') := load get_dataframe w in
  (raw_df ≫= normalize to_datetime, w').

(** Line 39: [print(df[[..., GDP, LIFE]].head())] needs both columns. *)
Definition print_head (df : Frame) : result unit :=
  if bool_decide (GDP ∈ columns df) && bool_decide (LIFE ∈ columns df)
  then Ok tt else Raise KeyError.

(** The file holds the program twice (lines 1-100 and 203-312).  When it is
    imported, as a WSGI server does to reach [server], neither [app.run] is
    reached and both copies execute in turn; the second [df] is the one the
    callbacks see. *)
Definition import_module (w : world blob) : result Frame * world blob :=
  let (df1, w1) := pipeline w in
  match df1 ≫= print_head with
  | Raise e => (Raise e, w1)
  | Ok _ => pipeline w1
  end.
End Startup.

(** ** Dashboard server *)

(** A click payload as Dash delivers it: [{'points': [pt, ...]}], where a
    point has a ['customdata'] entry only if its trace was built with
    [custom_data]. *)
Record point := { customdata : option (list cell) }.
Record clickData := { points : list point }.

(** [pt['customdata'][0]] *)
Definition customdata0 (pt : point) : result cell :=
  match customdata pt with
  | None => Raise KeyError
  | Some [] => Raise IndexError
  | Some (c :: _) => Ok c
  end.

(** Lines 269-273.  A callback input that was never clicked is [None]. *)
Definition selection (click_scatter click_bar : option clickData)
  : result (list cell) :=
  match click_scatter with
  | Some cs => traverse customdata0 (points cs)
  | None =>
      match click_bar with
      | Some cb => traverse customdata0 (points cb)
      | None => Ok []
      end
  end.

(** [s.isin(values)] on one element. *)
Definition isin (values : list cell) (c : cell) : bool :=
  bool_decide (c ∈ values).

(** Lines 274-275. *)
Definition restrict (selected : list cell) (dff : list Row) : list Row :=
  match selected with
  | [] => dff
  | _ => List.filter (fun r => isin selected (iso2 r)) dff
  end.

(** Position of a data column; a label that is absent or occurs twice
    cannot be used as a key. *)
Definition column_index (label : string) (cols : list string) : result nat :=
  match List.filter (fun ic => bool_decide (snd ic = label)) (imap pair cols) with
  | [] => Raise KeyError
  | [ic] => Ok (fst ic)
  | _ => Raise ValueError
  end.

(** plotly express rejects a column name it cannot resolve with a
    [ValueError]. *)
Definition px_column (label : string) (cols : list string) : result nat :=
  match column_index label cols with
  | Ok i => Ok i
  | Raise _ => Raise ValueError
  end.

Definition at_column (i : nat) (r : Row) : num := default None (data r !! i).

(** [df.head(n)] *)
Definition df_head {A} (n : nat) (l : list A) : list A := firstn n l.

(** [l[ix]]: fancy indexing of a list by a list of positions. *)
Definition take_at {A} (ix : list nat) (l : list A) : list A :=
  omap (fun i => l !! i) ix.

(** numpy's [argsort] with the default [kind='quicksort']: it returns the
    positions of the array in some order that makes the values ascend, and
    promises nothing about the order of equal values. *)
Class Argsort := {
  argsort : list Q -> list nat;
  argsort_perm : forall l, Permutation (argsort l) (seq 0 (length l));
  argsort_sorted : forall l, StronglySorted Qle (take_at (argsort l) l)
}.

Definition isna {A} (key : A -> num) (a : A) : bool :=
  match key a with None => true | Some _ => false end.

Section SortValues.
Context {S : Argsort} {A : Type}.
Variable key : A -> num.

(** [df.sort_values(col, ascending=False)], with pandas' defaults
    [kind='quicksort'] and [na_position='last']: the missing values are set
    aside, the others are reversed, argsorted ascending and reversed again,
    and the missing ones are appended in their original order. *)
Definition sort_values_desc (l : list A) : list A :=
  let non_nans := List.filter (fun a => negb (isna key a)) l in
  let nans := List.filter (isna key) l in
  let reversed := rev non_nans in
  rev (take_at (argsort (omap key reversed)) reversed) ++ nans.
End SortValues.

(** ** Figures *)

Record ScatterPoint := {
  sp_x : num;
  sp_y : num;
  sp_animation_frame : Z;
  sp_animation_group : cell;
  sp_color : cell;
  sp_customdata : list cell
}.

Record BarRow := {
  b_country_name : cell;
  b_value : num;
  b_iso2 : cell
}.

Definition bar_customdata (b : BarRow) : list cell :=
  [b_iso2 b; b_country_name b].

Record Figure (A : Type) := {
  fig_data : list A;
  fig_title : string;
  fig_clickmode : string;
  fig_xaxis_tickangle : option Z
}.
Arguments fig_data {A} f.
Arguments fig_title {A} f.
Arguments fig_clickmode {A} f.
Arguments fig_xaxis_tickangle {A} f.

Section Server.
Context {S : Argsort}.

(** The mark [px.scatter] makes of a row: [x], [y], the animation frame and
    group, the colour, and the custom data a later click hands back. *)
Definition scatter_point (x y : nat) (r : Row) : ScatterPoint :=
  {| sp_x := at_column x r; sp_y := at_column y r;
     sp_animation_frame := Year r;
     sp_animation_group := iso2 r;
     sp_color := country_name r;
     sp_customdata := [iso2 r; country_name r] |}.

Definition is_none (c : cell) : bool :=
  match c with PyNone => true | _ => false end.

(** plotly express makes one trace per colour: the rows whose colour cell
    is missing belong to no trace and are not drawn. *)
Definition drawn (dff : list Row) : list Row :=
  List.filter (fun r => negb (is_none (country_name r))) dff.

(** Grouping hashes the cells: a dict in the code or the name of a row
    cannot be grouped on. *)
Definition groupable (r : Row) : bool :=
  negb (is_dict (iso2 r)) && negb (is_dict (country_name r)).

(** [px.scatter(dff, x=GDP, y=LIFE, ...)] followed by [update_layout].
    plotly refuses a frame with a repeated column label, a column name it
    does not find, and cells it cannot group on. *)
Definition scatter (cols : list string) (dff : list Row)
  : result (Figure ScatterPoint) :=
  if bool_decide (NoDup cols) then
    x ← px_column GDP cols;
    y ← px_column LIFE cols;
    if forallb groupable dff then
      Ok {| fig_data := map (scatter_point x y) (drawn dff);
            fig_title := "GDP per Capita vs Life Expectancy (2000-2020)";
            fig_clickmode := "event+select";
            fig_xaxis_tickangle := None |}
    else Raise TypeError
  else Raise DuplicateError.

(** Line 295: [dff[dff['Year'] == end_year]]. *)
Definition latest (dff : list Row) : list Row :=
  List.filter (fun r => bool_decide (Year r = end_year)) dff.

(** Line 296: the three columns kept for the bar chart, [w] being the
    position of the water column. *)
Definition water_columns (w : nat) (rs : list Row) : list BarRow :=
  map (fun r => {| b_country_name := country_name r;
                   b_value := at_column w r;
                   b_iso2 := iso2 r |}) rs.

(** Lines 295-297: the frame handed to [px.bar]. *)
Definition water_frame (cols : list string) (dff : list Row)
  : result (list BarRow) :=
  let latest := latest dff in
  w ← column_index WATER cols;
  let water_df := water_columns w latest in
  Ok (df_head 15 (sort_values_desc b_value water_df)).

Definition bar (water_df : list BarRow) : Figure BarRow :=
  {| fig_data := water_df;
     fig_title := "Top 15 Countries by Clean Water Access (2020)";
     fig_clickmode := "event+select";
     fig_xaxis_tickangle := Some (-45)%Z |}.

(** Lines 267-308, with the module-level [df] passed in. *)
Definition update_figures (df : Frame) (click_scatter click_bar : option clickData)
  : result (Figure ScatterPoint * Figure BarRow) :=
  selected ← selection click_scatter click_bar;
  let dff := restrict selected (rows df) in
  fig1 ← scatter (columns df) dff;
  water_df ← water_frame (columns df) dff;
  Ok (fig1, bar water_df).
End Server.

(** ** Vocabulary of the properties *)

(** The order of a descending column whose missing values come last. *)
Definition descending (x y : num) : Prop :=
  match x, y with
  | Some a, Some b => (b <= a)%Q
  | _, None => True
  | None, Some _ => False
  end.

(** What one raw row becomes.  [structured] tells which branch was chosen
    from the first row. *)
Definition shaped (to_datetime : string -> option datetime) (structured : bool)
  (r : RawRow) (o : Row) : Prop :=
  country o = r_country r /\ date o = r_date r /\ data o = r_data r
  /\ dt_year <$> to_datetime (r_date r) = Some (Year o)
  /\ if structured
     then exists d, r_country r = Dict d
                    /\ iso2 o = from_option Str PyNone (d !! "id")
                    /\ country_name o = from_option Str PyNone (d !! "value")
     else iso2 o = r_country r /\ country_name o = r_country r.

(** The key the observation table is meant to be unique on. *)
Definition obs_key (o : Row) : cell * Z := (iso2 o, Year o).

(** The branch [normalize] takes on a frame. *)
Definition structured (raw : RawFrame) : bool :=
  match raw_rows raw with
  | r0 :: _ => is_dict (r_country r0)
  | [] => false
  end.

(** The code and year a raw row yields. *)
Definition raw_key (to_datetime : string -> option datetime) (dicts : bool)
  (r : RawRow) : cell * Z :=
  (match dicts, r_country r with
   | true, Dict d => from_option Str PyNone (d !! "id")
   | _, c => c
   end,
   from_option dt_year 0%Z (to_datetime (r_date r))).

(** The rows of the end year that do report the column at position [w]. *)
Definition reported (w : nat) (dff : list Row) : list Row :=
  List.filter (fun r => negb (isna (at_column w) r)) (latest dff).

(** The points of the payload that [update_figures] reads. *)
Definition clicked_points (click_scatter click_bar : option clickData) : list point :=
  match click_scatter, click_bar with
  | Some cs, _ => points cs
  | None, Some cb => points cb
  | None, None => []
  end.

(** No two different rows of [l] hold the same value. *)
Definition untied {A} (key : A -> num) (l : list A) : Prop :=
  forall x y qx qy,
    x ∈ l -> y ∈ l -> key x = Some qx -> key y = Some qy -> (qx == qy)%Q -> x = y.

(** ** Insertion argsort

    Insertion sort over the positions of the array.  The comparison decides
    on which side of an equal value a new position lands, so the same
    procedure yields a sort that keeps equal values in array order and one
    that does not. *)

Definition enumerate (l : list Q) : list (nat * Q) := zip (seq 0 (length l)) l.

Fixpoint insert (before : Q -> Q -> bool) (x : nat * Q) (l : list (nat * Q))
  : list (nat * Q) :=
  match l with
  | [] => [x]
  | y :: l' => if before (snd x) (snd y) then x :: y :: l' else y :: insert before x l'
  end.

Definition insertion_sort (before : Q -> Q -> bool) (l : list (nat * Q))
  : list (nat * Q) :=
  foldr (insert before) [] l.

Definition insertion_argsort (before : Q -> Q -> bool) (l : list Q) : list nat :=
  map fst (insertion_sort before (enumerate l)).

Definition Qlt_bool (x y : Q) : bool := negb (Qle_bool y x).

(** ** Stand-ins used to run the model *)

(** Pickling that keeps the frame as it is. *)
#[global] Instance frame_pickle : Pickle RawFrame :=
  {| to_pickle := fun t => t;
     read_pickle := fun b => Ok b;
     read_to_pickle := fun t => eq_refl |}.

Definition digit (a : ascii) : option Z :=
  let n := Z.of_nat (nat_of_ascii a) in
  if bool_decide (48 <= n <= 57)%Z then Some (n - 48)%Z else None.

Fixpoint decimal (acc : Z) (s : string) : option Z :=
  match s with
  | EmptyString => Some acc
  | String a s' => d ← digit a; decimal (10 * acc + d) s'
  end.

(** The dates wbdata labels its rows with are years in decimal, which
    [pd.to_datetime] reads as the first of January of that year. *)
Definition year_label (s : string) : option datetime :=
  match s with
  | EmptyString => None
  | _ => y ← decimal 0 s; Some {| dt_year := y; dt_month := 1; dt_day := 1 |}
  end.

(** Pickling whose files may be unreadable: [None] is a corrupt file. *)
Definition fragile_pickle : Pickle (option RawFrame) :=
  {| to_pickle := fun t => Some t;
     read_pickle := fun b => match b with
                             | Some t => Ok t
                             | None => Raise UnpicklingError
                             end;
     read_to_pickle := fun t => eq_refl |}.

(** ** Sample data *)

Definition us : cell := Dict (<["id" := "US"]> (<["value" := "United States"]> ∅)).
Definition ke : cell := Dict (<["id" := "KE"]> (<["value" := "Kenya"]> ∅)).

Definition raw_structured : RawFrame :=
  {| raw_columns := ["NY.GDP.PCAP.CD"; "SP.DYN.LE00.IN"; "SH.H2O.SMDW.ZS"];
     raw_rows :=
       [ {| r_country := us; r_date := "2020";
            r_data := [Some (63528 # 1); Some (77 # 1); Some (97 # 1)] |};
         {| r_country := ke; r_date := "2020";
            r_data := [Some (1936 # 1); Some (63 # 1); None] |} ] |}.

Definition raw_flat : RawFrame :=
  {| raw_columns := [GDP; LIFE; WATER];
     raw_rows :=
       [ {| r_country := Str "Kenya"; r_date := "2019";
            r_data := [Some (1970 # 1); Some (62 # 1); Some (61 # 1)] |};
         {| r_country := Str "Kenya"; r_date := "2020";
            r_data := [Some (1936 # 1); Some (63 # 1); Some (62 # 1)] |} ] |}.

(** The same (country, date) label twice, as a frame's index may hold. *)
Definition raw_repeated : RawFrame :=
  {| raw_columns := [GDP; LIFE; WATER];
     raw_rows :=
       [ {| r_country := Str "Kenya"; r_date := "2020";
            r_data := [Some (1936 # 1); Some (63 # 1); Some (62 # 1)] |};
         {| r_country := Str "Kenya"; r_date := "2020";
            r_data := [Some (1936 # 1); Some (63 # 1); Some (62 # 1)] |} ] |}.

Definition empty_world : world RawFrame := {| fs := ∅; sent := [] |}.

(** ** Sample observation tables *)

Definition obs (code name : string) (y : Z) (gdp life water : num) : Row :=
  {| country := Str name; date := ""; data := [gdp; life; water];
     iso2 := Str code; country_name := Str name; Year := y |}.

(** Three countries in two years; clean-water access 10, 90 and 50 in 2020. *)
Definition df_three : Frame :=
  {| columns := [GDP; LIFE; WATER];
     rows := [ obs "AA" "Aland" 2010 (Some (1 # 1)) (Some (60 # 1)) (Some (5 # 1));
               obs "AA" "Aland" 2020 (Some (2 # 1)) (Some (61 # 1)) (Some (10 # 1));
               obs "BB" "Boria" 2010 (Some (3 # 1)) (Some (70 # 1)) (Some (80 # 1));
               obs "BB" "Boria" 2020 (Some (4 # 1)) (Some (71 # 1)) (Some (90 # 1));
               obs "CC" "Cimar" 2010 (Some (5 # 1)) (Some (65 # 1)) (Some (40 # 1));
               obs "CC" "Cimar" 2020 (Some (6 # 1)) (Some (66 # 1)) (Some (50 # 1)) ] |}.

(** One country that reported no clean-water figure for 2020. *)
Definition df_unreported : Frame :=
  {| columns := [GDP; LIFE; WATER];
     rows := [ obs "AA" "Aland" 2020 (Some (2 # 1)) (Some (61 # 1)) None ] |}.

Definition click (codes : list (option (list cell))) : option clickData :=
  Some {| points := map (fun c => {| customdata := c |}) codes |}.

(** * Properties *)

(** ** Two sorts behind the [Argsort] interface *)

Section Insertion.
Variable before : Q -> Q -> bool.
Hypothesis before_le : forall x y, before x y = true -> (x <= y)%Q.
Hypothesis after_le : forall x y, before x y = false -> (y <= x)%Q.

Lemma insert_perm x l : Permutation (insert before x l) (x :: l).
Proof.
  induction l as [|y l IH]; simpl; [reflexivity|].
  destruct (before (snd x) (snd y)); [reflexivity|].
  rewrite IH. apply perm_swap.
Qed.

Lemma insertion_sort_perm l : Permutation (insertion_sort before l) l.
Proof.
  induction l as [|x l IH]; simpl; [reflexivity|].
  rewrite insert_perm. by constructor.
Qed.

Lemma insert_sorted x l :
  StronglySorted (fun a b => (snd a <= snd b)%Q) l ->
  StronglySorted (fun a b => (snd a <= snd b)%Q) (insert before x l).
Proof.
  induction 1 as [|y l Hs IH Hy]; simpl.
  - repeat constructor.
  - destruct (before (snd x) (snd y)) eqn:E.
    + constructor; [by constructor|].
      apply before_le in E. constructor; [done|].
      eapply Forall_impl; [exact Hy|]. simpl. intros a Ha. by eapply Qle_trans.
    + constructor; [done|].
      apply after_le in E.
      eapply Permutation_Forall; [symmetry; apply insert_perm|].
      by constructor.
Qed.

Lemma insertion_sort_sorted l :
  StronglySorted (fun a b => (snd a <= snd b)%Q) (insertion_sort before l).
Proof.
  induction l as [|x l IH]; simpl; [constructor|]. by apply insert_sorted.
Qed.
End Insertion.

Lemma enumerate_fst l : map fst (enumerate l) = seq 0 (length l).
Proof. unfold enumerate. apply fst_zip. by rewrite length_seq. Qed.

Lemma enumerate_lookup l :
  Forall (fun p => l !! fst p = Some (snd p)) (enumerate l).
Proof.
  apply Forall_forall. intros [i q] Hin.
  apply list_elem_of_lookup in Hin as [j Hj].
  unfold enumerate in Hj. apply lookup_zip_Some in Hj as [Hi Hq].
  apply lookup_seq in Hi as [-> _]. done.
Qed.

Lemma take_at_pairs (l : list Q) (ps : list (nat * Q)) :
  Forall (fun p => l !! fst p = Some (snd p)) ps ->
  take_at (map fst ps) l = map snd ps.
Proof.
  induction 1 as [|p ps Hp _ IH]; [done|].
  unfold take_at in *. simpl. rewrite Hp. simpl. by f_equal.
Qed.

Lemma sorted_snd (ps : list (nat * Q)) :
  StronglySorted (fun a b => (snd a <= snd b)%Q) ps ->
  StronglySorted Qle (map snd ps).
Proof.
  induction 1 as [|p ps _ IH Hp]; simpl; constructor; [done|].
  apply Forall_forall. intros q Hq. apply list_elem_of_fmap in Hq as [p' [-> Hin]].
  rewrite Forall_forall in Hp. by apply Hp.
Qed.

Section InsertionArgsort.
Variable before : Q -> Q -> bool.
Hypothesis before_le : forall x y, before x y = true -> (x <= y)%Q.
Hypothesis after_le : forall x y, before x y = false -> (y <= x)%Q.

Lemma insertion_argsort_perm l :
  Permutation (insertion_argsort before l) (seq 0 (length l)).
Proof.
  unfold insertion_argsort. rewrite <- enumerate_fst.
  apply Permutation_map, insertion_sort_perm.
Qed.

Lemma insertion_argsort_sorted l :
  StronglySorted Qle (take_at (insertion_argsort before l) l).
Proof.
  unfold insertion_argsort. rewrite take_at_pairs.
  - apply sorted_snd. by apply insertion_sort_sorted.
  - eapply Permutation_Forall; [symmetry; apply insertion_sort_perm|].
    apply enumerate_lookup.
Qed.
End InsertionArgsort.

Lemma Qle_bool_after x y : Qle_bool x y = false -> (y <= x)%Q.
Proof.
  intros E. destruct (Qlt_le_dec y x) as [Hlt|Hle]; [by apply Qlt_le_weak|].
  apply Qle_bool_iff in Hle. congruence.
Qed.

Lemma Qlt_bool_le x y : Qlt_bool x y = true -> (x <= y)%Q.
Proof. unfold Qlt_bool. intros E. apply Qle_bool_after. by destruct (Qle_bool y x). Qed.

Lemma Qlt_bool_after x y : Qlt_bool x y = false -> (y <= x)%Q.
Proof.
  unfold Qlt_bool. intros E. apply Qle_bool_iff. by destruct (Qle_bool y x).
Qed.

(** Equal values stay in array order (what [kind='stable'] would give). *)
Definition stable_sorter : Argsort :=
  {| argsort := insertion_argsort Qle_bool;
     argsort_perm := insertion_argsort_perm Qle_bool;
     argsort_sorted :=
       insertion_argsort_sorted Qle_bool (fun x y => proj1 (Qle_bool_iff x y))
                                Qle_bool_after |}.

(** A second sort behind the same interface: equal values come out in
    reverse array order. *)
Definition unstable_sorter : Argsort :=
  {| argsort := insertion_argsort Qlt_bool;
     argsort_perm := insertion_argsort_perm Qlt_bool;
     argsort_sorted :=
       insertion_argsort_sorted Qlt_bool Qlt_bool_le Qlt_bool_after |}.

(** ** Exceptions propagate, traversals keep lengths *)

Lemma traverse_inv {A B} (f : A -> result B) l ys :
  traverse f l = Ok ys -> Forall2 (fun x y => f x = Ok y) l ys.
Proof.
  revert ys. induction l as [|x l IH]; simpl; intros ys E.
  - inversion E. constructor.
  - destruct (f x) as [y|e] eqn:Ey; simpl in E; [|done].
    destruct (traverse f l) as [ys'|e]; simpl in E; [|done].
    inversion E; subst. constructor; [done|]. by apply IH.
Qed.

(** ** Fancy indexing *)

Lemma take_at_seq {A} (pre l : list A) :
  take_at (seq (length pre) (length l)) (pre ++ l) = l.
Proof.
  revert pre. induction l as [|x l IH]; intros pre; [done|].
  unfold take_at in *. simpl.
  rewrite lookup_app_r, Nat.sub_diag by lia. simpl. f_equal.
  specialize (IH (pre ++ [x])). rewrite length_app, <- app_assoc in IH. simpl in IH.
  by rewrite Nat.add_1_r in IH.
Qed.

Lemma take_at_perm {A} (ix : list nat) (l : list A) :
  Permutation ix (seq 0 (length l)) -> Permutation (take_at ix l) l.
Proof.
  intros Hp. unfold take_at. rewrite Hp. exact (reflexive_eq _ _ (take_at_seq [] l)).
Qed.

Lemma take_at_omap {A B} (f : A -> option B) (ix : list nat) (l : list A) :
  Forall (fun a => is_Some (f a)) l ->
  omap f (take_at ix l) = take_at ix (omap f l).
Proof.
  intros Hall. unfold take_at.
  assert (Hlk : forall i, (omap f l) !! i = l !! i ≫= f).
  { clear ix. induction Hall as [|a l [b Hb] _ IH]; intros i; [done|].
    simpl. rewrite Hb. destruct i; simpl; [done|]. apply IH. }
  induction ix as [|i ix IH]; [done|]. simpl. rewrite Hlk.
  destruct (l !! i) as [a|] eqn:Ea; simpl; [|done].
  apply list_elem_of_lookup_2 in Ea. rewrite Forall_forall in Hall.
  destruct (Hall a Ea) as [b Hb]. rewrite Hb. by f_equal.
Qed.

Lemma omap_length_Some {A B} (f : A -> option B) (l : list A) :
  Forall (fun a => is_Some (f a)) l -> length (omap f l) = length l.
Proof.
  induction 1 as [|a l [b Hb] _ IH]; [done|]. simpl. rewrite Hb. simpl. by f_equal.
Qed.

(** ** Rows with and without a value *)

Lemma filter_split {A} (p : A -> bool) (l : list A) :
  Permutation (List.filter (fun a => negb (p a)) l ++ List.filter p l) l.
Proof.
  induction l as [|a l IH]; simpl; [done|].
  destruct (p a); simpl.
  - rewrite <- Permutation_middle. by constructor.
  - by constructor.
Qed.

Lemma present_is_Some {A} (key : A -> num) (l : list A) :
  Forall (fun a => is_Some (key a)) (List.filter (fun a => negb (isna key a)) l).
Proof.
  apply Forall_forall. intros a Ha. apply list_elem_of_In, filter_In in Ha as [_ Ha].
  unfold isna in Ha. destruct (key a); [by eexists|done].
Qed.

Section SortValuesFacts.
Context {S : Argsort} {A : Type}.
Variable key : A -> num.

Lemma sort_values_desc_perm (l : list A) :
  Permutation (sort_values_desc key l) l.
Proof.
  unfold sort_values_desc.
  set (present := List.filter (fun a => negb (isna key a)) l).
  assert (Hs : Forall (fun a => is_Some (key a)) (rev present)).
  { apply Forall_forall. intros a Ha. apply list_elem_of_In, in_rev in Ha.
    apply list_elem_of_In in Ha. revert a Ha. apply Forall_forall, present_is_Some. }
  rewrite <- Permutation_rev, take_at_perm.
  - rewrite <- Permutation_rev. apply filter_split.
  - rewrite <- (omap_length_Some key) by done. apply argsort_perm.
Qed.

Lemma sort_values_desc_length (l : list A) :
  length (sort_values_desc key l) = length l.
Proof. apply Permutation_length, sort_values_desc_perm. Qed.

Lemma sorted_keys_descending (t : list A) :
  Forall (fun a => is_Some (key a)) t ->
  StronglySorted Qle (omap key t) ->
  StronglySorted (fun a b => descending (key a) (key b)) (rev t).
Proof.
  induction 1 as [|a t [q Hq] Hall IH]; simpl; intros Hs; [constructor|].
  rewrite Hq in Hs. simpl in Hs. apply StronglySorted_inv in Hs as [Hs Hhd].
  apply StronglySorted_app_2; [|by apply IH|repeat constructor].
  intros x y Hx Hy. apply list_elem_of_In in Hx. apply in_rev in Hx.
  apply list_elem_of_In in Hx. apply list_elem_of_singleton in Hy as ->.
  rewrite Forall_forall in Hall. destruct (Hall x Hx) as [qx Hqx].
  rewrite Hq, Hqx. simpl. rewrite Forall_forall in Hhd. apply Hhd.
  apply list_elem_of_omap. eauto.
Qed.

Lemma sort_values_desc_sorted (l : list A) :
  StronglySorted (fun a b => descending (key a) (key b)) (sort_values_desc key l).
Proof.
  unfold sort_values_desc.
  set (present := List.filter (fun a => negb (isna key a)) l).
  assert (Hs : Forall (fun a => is_Some (key a)) (rev present)).
  { apply Forall_forall. intros a Ha. apply list_elem_of_In, in_rev in Ha.
    apply list_elem_of_In in Ha. revert a Ha. apply Forall_forall, present_is_Some. }
  assert (Hna : forall y, y ∈ List.filter (isna key) l -> key y = None).
  { intros y Hy. apply list_elem_of_In, filter_In in Hy as [_ Hy].
    unfold isna in Hy. by destruct (key y). }
  apply StronglySorted_app_2.
  - intros x y _ Hy. rewrite (Hna y Hy). by destruct (key x).
  - apply sorted_keys_descending.
    + apply Forall_forall. intros a Ha. unfold take_at in Ha.
      apply list_elem_of_omap in Ha as [i [_ Hi]].
      apply list_elem_of_lookup_2 in Hi. rewrite Forall_forall in Hs. by apply Hs.
    + rewrite take_at_omap by done. apply argsort_sorted.
  - induction (List.filter (isna key) l) as [|y t IH]; constructor.
    + apply IH. intros z Hz. apply Hna. by right.
    + apply Forall_forall. intros z Hz. rewrite (Hna z) by (by right).
      by destruct (key y).
Qed.
End SortValuesFacts.

(** ** The normaliser, row by row *)

Lemma traverse_intro {A B} (f : A -> result B) l ys :
  Forall2 (fun x y => f x = Ok y) l ys -> traverse f l = Ok ys.
Proof.
  induction 1 as [|x y l ys Hx _ IH]; simpl; [done|]. by rewrite Hx, IH.
Qed.

Lemma assemble_Forall2 (P1 P2 : RawRow -> cell -> Prop) (P3 : RawRow -> Z -> Prop)
  rs codes names ys :
  Forall2 P1 rs codes -> Forall2 P2 rs names -> Forall2 P3 rs ys ->
  Forall2 (fun r o => country o = r_country r /\ date o = r_date r
                      /\ data o = r_data r /\ P1 r (iso2 o)
                      /\ P2 r (country_name o) /\ P3 r (Year o))
          rs (assemble rs codes names ys).
Proof.
  intros H1. revert names ys.
  induction H1 as [|r c rs codes Hc _ IH]; intros names ys H2 H3.
  - inversion H2; subst. constructor.
  - inversion H2; subst. inversion H3; subst. simpl. constructor; [done|].
    by apply IH.
Qed.

Lemma assemble_columns rs os :
  Forall2 (fun r o => country o = r_country r /\ date o = r_date r
                      /\ data o = r_data r) rs os ->
  assemble rs (map iso2 os) (map country_name os) (map Year os) = os.
Proof.
  induction 1 as [|r o rs os (Hc & Hd & Hv) _ IH]; [done|]. simpl.
  rewrite IH. f_equal. destruct o; simpl in *. unfold mk_row. by subst.
Qed.

Lemma get_Ok k x c :
  get k x = Ok c <-> exists d, x = Dict d /\ c = from_option Str PyNone (d !! k).
Proof.
  destruct x as [s|d|]; simpl; split.
  - done.
  - by intros (d & ? & _).
  - intros E. inversion E. exists d. split; [done|]. by destruct (d !! k).
  - intros (d' & E & ->). inversion E; subst. by destruct (d' !! k).
  - done.
  - by intros (d & ? & _).
Qed.

Lemma to_year_Ok to_datetime s y :
  to_year to_datetime s = Ok y <-> dt_year <$> to_datetime s = Some y.
Proof.
  unfold to_year. destruct (to_datetime s); simpl; split; intros E;
    inversion E; done.
Qed.

Lemma normalize_Ok to_datetime cols r0 rest df :
  normalize to_datetime {| raw_columns := cols; raw_rows := r0 :: rest |} = Ok df
  <-> columns df = rename indicators cols
      /\ Forall2 (shaped to_datetime (is_dict (r_country r0))) (r0 :: rest) (rows df).
Proof.
  unfold normalize. cbn [raw_rows raw_columns loc0_country mbind result_bind].
  generalize (r0 :: rest). intros rs. split.
  - intros E. destruct (is_dict (r_country r0)).
    + destruct (traverse (fun r => get "id" (r_country r)) rs) as [codes|] eqn:Ec;
        [|done].
      destruct (traverse (fun r => get "value" (r_country r)) rs) as [names|] eqn:En;
        [|done].
      destruct (traverse (fun r => to_year to_datetime (r_date r)) rs) as [ys|] eqn:Ey;
        [|done].
      cbn in E. inversion E; subst. cbn. split; [done|].
      eapply Forall2_impl;
        [exact (assemble_Forall2 _ _ _ _ _ _ _ (traverse_inv _ _ _ Ec)
                  (traverse_inv _ _ _ En) (traverse_inv _ _ _ Ey))|].
      intros r o (? & ? & ? & Hi & Hn & Hy). cbn in *.
      apply get_Ok in Hi as (d & Hd & Hi). apply get_Ok in Hn as (d' & Hd' & Hn).
      apply to_year_Ok in Hy. repeat split; try done.
      exists d. rewrite Hd in Hd'. inversion Hd'; subst. done.
    + destruct (traverse (fun r => to_year to_datetime (r_date r)) rs) as [ys|] eqn:Ey;
        [|done].
      cbn in E. inversion E; subst. cbn. split; [done|].
      eapply Forall2_impl;
        [apply (assemble_Forall2 (fun r c => c = r_country r)
                  (fun r c => c = r_country r)
                  (fun r y => to_year to_datetime (r_date r) = Ok y));
         [| |exact (traverse_inv _ _ _ Ey)]|].
      * apply Forall2_fmap_r, Forall_Forall2_diag, Forall_forall. done.
      * apply Forall2_fmap_r, Forall_Forall2_diag, Forall_forall. done.
      * intros r o (? & ? & ? & Hi & Hn & Hy). cbn in *.
        apply to_year_Ok in Hy. done.
  - intros [Hcols Hrows].
    assert (Hy : traverse (fun r => to_year to_datetime (r_date r)) rs
                 = Ok (map Year (rows df))).
    { apply traverse_intro, Forall2_fmap_r. eapply Forall2_impl; [exact Hrows|].
      intros r o (_ & _ & _ & Hy & _). by apply to_year_Ok. }
    assert (Ha : assemble rs (map iso2 (rows df)) (map country_name (rows df))
                   (map Year (rows df)) = rows df).
    { apply assemble_columns. eapply Forall2_impl; [exact Hrows|].
      intros r o (? & ? & ? & _). done. }
    destruct (is_dict (r_country r0)).
    + rewrite (traverse_intro (fun r => get "id" (r_country r)) rs (map iso2 (rows df))).
      2:{ apply Forall2_fmap_r. eapply Forall2_impl; [exact Hrows|].
          intros r o (_ & _ & _ & _ & d & Hd & Hi & _). apply get_Ok. eauto. }
      cbn. rewrite (traverse_intro (fun r => get "value" (r_country r)) rs
                 (map country_name (rows df))).
      2:{ apply Forall2_fmap_r. eapply Forall2_impl; [exact Hrows|].
          intros r o (_ & _ & _ & _ & d & Hd & _ & Hn). apply get_Ok. eauto. }
      cbn. rewrite Hy. cbn. rewrite Ha, <- Hcols. by destruct df.
    + rewrite Hy. cbn.
      assert (Hc : map r_country rs = map iso2 (rows df)).
      { clear -Hrows. induction Hrows as [|r o ? ? (_ & _ & _ & _ & Hi & _) _ IH];
          [done|]. simpl. by rewrite Hi, IH. }
      assert (Hn : map r_country rs = map country_name (rows df)).
      { clear -Hrows. induction Hrows as [|r o ? ? (_ & _ & _ & _ & _ & Hn) _ IH];
          [done|]. simpl. by rewrite Hn, IH. }
      rewrite Hc at 1. rewrite Hn, Ha, <- Hcols. by destruct df.
Qed.

Example normalize_structured :
  normalize year_label raw_structured
  = Ok {| columns := [GDP; LIFE; WATER];
          rows :=
            [ {| country := us; date := "2020";
                 data := [Some (63528 # 1); Some (77 # 1); Some (97 # 1)];
                 iso2 := Str "US"; country_name := Str "United States";
                 Year := 2020 |};
              {| country := ke; date := "2020";
                 data := [Some (1936 # 1); Some (63 # 1); None];
                 iso2 := Str "KE"; country_name := Str "Kenya";
                 Year := 2020 |} ] |}.
Proof. vm_compute. reflexivity. Qed.

Example normalize_mixed_raises :
  normalize year_label
    {| raw_columns := [WATER];
       raw_rows := [ {| r_country := us; r_date := "2020"; r_data := [None] |};
                     {| r_country := Str "Kenya"; r_date := "2020";
                        r_data := [None] |} ] |}
  = Raise AttributeError.
Proof. vm_compute. reflexivity. Qed.

Lemma load_sent_bound {blob} `{Pickle blob} get_dataframe (w : world blob) :
  length (sent (snd (load get_dataframe w))) <= length (sent w) + 1.
Proof.
  unfold load. destruct (fs w !! cache_file); simpl; [lia|].
  destruct (get_dataframe _); simpl; rewrite length_app; simpl; lia.
Qed.

Lemma load_cached {blob} `{Pickle blob} get_dataframe (w : world blob) b :
  fs w !! cache_file = Some b -> load get_dataframe w = (read_pickle b, w).
Proof. intros E. unfold load. by rewrite E. Qed.

Lemma load_leaves_cache {blob} `{Pickle blob} get_dataframe (w : world blob) raw :
  fst (load get_dataframe w) = Ok raw ->
  exists b, fs (snd (load get_dataframe w)) !! cache_file = Some b
            /\ read_pickle b = Ok raw.
Proof.
  unfold load. destruct (fs w !! cache_file) as [b|] eqn:E; simpl.
  - intros Hb. eauto.
  - destruct (get_dataframe _) as [t|e]; simpl; [|done].
    intros Ht. inversion Ht; subst. exists (to_pickle raw).
    rewrite lookup_insert_eq. split; [done|]. apply read_to_pickle.
Qed.

(** C1. Loading with a cold cache (fetch, then persist) and loading again
    from the cache that run left behind return the same table, whatever the
    World Bank would answer the second time; hence normalising either gives
    the same observation table (or the same exception). *)
Theorem cold_and_warm_load_agree {blob} `{Pickle blob}
  (get_dataframe get_dataframe' : request -> result RawFrame)
  (to_datetime : string -> option datetime) (w : world blob) (t : RawFrame) :
  fs w !! cache_file = None ->
  get_dataframe the_request = Ok t ->
  let cold := load get_dataframe w in
  let warm := load get_dataframe' (snd cold) in
  fst cold = Ok t /\ fst warm = Ok t
  /\ fst cold ≫= normalize to_datetime = fst warm ≫= normalize to_datetime.
Proof.
  intros Hmiss Hfetch. cbv zeta.
  assert (Hcold : fst (load get_dataframe w) = Ok t).
  { unfold load. rewrite Hmiss. cbv zeta. by rewrite Hfetch. }
  destruct (load_leaves_cache get_dataframe w t Hcold) as (b & Hb & Hread).
  assert (Hwarm : fst (load get_dataframe' (snd (load get_dataframe w))) = Ok t).
  { rewrite (load_cached _ _ b Hb). done. }
  by rewrite Hcold, Hwarm.
Qed.

Lemma cold_and_warm_load_agree_witness :
  let cold := load (fun _ => Ok raw_structured) empty_world in
  let warm := load (fun _ => Raise NetworkError) (snd cold) in
  fst cold = Ok raw_structured /\ fst warm = Ok raw_structured
  /\ fst cold ≫= normalize year_label = fst warm ≫= normalize year_label.
Proof.
  apply (cold_and_warm_load_agree (fun _ => Ok raw_structured)
           (fun _ => Raise NetworkError) year_label empty_world raw_structured);
    reflexivity.
Defined.

(** C2. [load] sends at most one request.  With a cache file it returns the
    unpickled file and leaves the world as it was, so nothing is sent.
    Without one it sends exactly one request, for the whole indicator
    mapping over [data_date]; the table received is written to the cache
    path as it is and is the value returned.  Importing the module, which
    runs both copies of the pipeline, still sends at most one request. *)
Theorem load_sends_at_most_one_request {blob} `{Pickle blob}
  (get_dataframe : request -> result RawFrame)
  (to_datetime : string -> option datetime) (w : world blob) :
  (forall b, fs w !! cache_file = Some b ->
             load get_dataframe w = (read_pickle b, w))
  /\ (fs w !! cache_file = None ->
      forall t, get_dataframe the_request = Ok t ->
                load get_dataframe w
                = (Ok t, {| fs := <[cache_file := to_pickle t]> (fs w);
                            sent := sent w ++ [the_request] |}))
  /\ (fs w !! cache_file = None ->
      forall e, get_dataframe the_request = Raise e ->
                load get_dataframe w
                = (Raise e, {| fs := fs w; sent := sent w ++ [the_request] |}))
  /\ length (sent (snd (load get_dataframe w))) <= length (sent w) + 1
  /\ length (sent (snd (import_module get_dataframe to_datetime w)))
     <= length (sent w) + 1.
Proof.
  split; [intros b; apply load_cached|].
  split; [intros E t Ht; unfold load; rewrite E; cbv zeta; by rewrite Ht|].
  split; [intros E e He; unfold load; rewrite E; cbv zeta; by rewrite He|].
  split; [apply load_sent_bound|].
  unfold import_module, pipeline.
  destruct (load get_dataframe w) as [r1 w1] eqn:E1.
  pose proof (load_sent_bound get_dataframe w) as Hb. rewrite E1 in Hb. simpl in Hb.
  destruct ((r1 ≫= normalize to_datetime) ≫= print_head) as [[]|e] eqn:E2; [|done].
  destruct r1 as [raw|e]; [|done].
  destruct (load_leaves_cache get_dataframe w raw) as (b & Hc & _);
    [by rewrite E1|].
  rewrite E1 in Hc. simpl in Hc. rewrite (load_cached _ _ b Hc). done.
Qed.

Example import_cold_sends_once :
  sent (snd (import_module (fun _ => Ok raw_structured) year_label empty_world))
  = [the_request].
Proof. vm_compute. reflexivity. Qed.


Example indicator_labels :
  rename indicators ["NY.GDP.PCAP.CD"; "SP.DYN.LE00.IN"; "SH.H2O.SMDW.ZS"; "other"]
  = [GDP; LIFE; WATER; "other"].
Proof. vm_compute. reflexivity. Qed.

Lemma normalize_keys to_datetime raw df :
  normalize to_datetime raw = Ok df ->
  map obs_key (rows df) = map (raw_key to_datetime (structured raw)) (raw_rows raw).
Proof.
  destruct raw as [cols [|r0 rest]]; [done|].
  intros E. apply normalize_Ok in E as [_ Hrows].
  unfold structured. cbn [raw_rows]. revert Hrows.
  generalize (is_dict (r_country r0)) (r0 :: rest) (rows df). clear.
  intros b rs os. induction 1 as [|r o rs os (_ & _ & _ & Hy & Hc) _ IH]; [done|].
  simpl. rewrite IH. f_equal. unfold obs_key, raw_key.
  destruct (to_datetime (r_date r)) as [dt|]; [|done]. inversion Hy. simpl.
  f_equal. destruct b.
  - destruct Hc as (d & -> & -> & _). done.
  - destruct Hc as [-> _]. by destruct (r_country r).
Qed.

(** C9, as the code has it.  [normalize] keeps the rows one for one and
    computes [iso2] and [Year] from each row alone, so the table it returns
    has unique (country_code, year) pairs exactly when the raw rows yield
    pairwise different codes and years: uniqueness is the upstream table's,
    nothing in the pipeline establishes it. *)
Theorem normalize_preserves_key_uniqueness
  (to_datetime : string -> option datetime) raw df :
  normalize to_datetime raw = Ok df ->
  length (rows df) = length (raw_rows raw)
  /\ (NoDup (map obs_key (rows df))
      <-> NoDup (map (raw_key to_datetime (structured raw)) (raw_rows raw))).
Proof.
  intros E. pose proof (normalize_keys _ _ _ E) as Hk. split.
  - rewrite <- (length_map obs_key), Hk. apply length_map.
  - by rewrite Hk.
Qed.

Lemma normalize_preserves_key_uniqueness_witness :
  exists df, normalize year_label raw_flat = Ok df
    /\ length (rows df) = length (raw_rows raw_flat)
    /\ (NoDup (map obs_key (rows df))
        <-> NoDup (map (raw_key year_label (structured raw_flat))
                       (raw_rows raw_flat))).
Proof.
  eexists. split; [vm_compute; reflexivity|].
  apply (normalize_preserves_key_uniqueness year_label raw_flat).
  vm_compute. reflexivity.
Defined.

(** C9 does not hold of every table the pipeline can load: a frame whose
    index repeats a (country, date) label is normalised into a table with
    two rows for the same country and year. *)
Lemma repeated_label_breaks_uniqueness :
  exists df, normalize year_label raw_repeated = Ok df
             /\ ~ NoDup (map obs_key (rows df)).
Proof.
  eexists. split; [vm_compute; reflexivity|].
  intros Hnd. apply NoDup_cons in Hnd as [Hnotin _]. apply Hnotin. by left.
Qed.

(** C10. [normalize] raises [KeyError] exactly on a table without rows:
    [df.loc[0, 'country']] has no row 0 to read.  So when what [load]
    returns is empty, importing the module stops with that exception. *)
Theorem normalize_empty_raises {blob} `{Pickle blob}
  (get_dataframe : request -> result RawFrame)
  (to_datetime : string -> option datetime) (w : world blob) raw :
  (normalize to_datetime raw = Raise KeyError <-> raw_rows raw = [])
  /\ (fst (load get_dataframe w) = Ok raw -> raw_rows raw = [] ->
      fst (pipeline get_dataframe to_datetime w) = Raise KeyError
      /\ fst (import_module get_dataframe to_datetime w) = Raise KeyError).
Proof.
  split.
  - split.
    + destruct raw as [cols [|r0 rest]]; [done|]. intros E. exfalso.
      unfold normalize in E. cbn [raw_rows raw_columns loc0_country mbind result_bind] in E.
      revert E. generalize (r0 :: rest). intros rs E.
      assert (Hget : forall k, traverse (fun r => get k (r_country r)) rs
                               <> Raise KeyError).
      { clear. intros k. induction rs as [|r rs IH]; [done|]. cbn.
        destruct (r_country r); cbn; try done.
        destruct (traverse _ rs); cbn; [done|]. congruence. }
      assert (Hyear : traverse (fun r => to_year to_datetime (r_date r)) rs
                      <> Raise KeyError).
      { clear. induction rs as [|r rs IH]; [done|]. cbn [traverse].
        destruct (to_year to_datetime (r_date r)) as [y|e] eqn:Ey;
          cbn [mbind result_bind].
        - destruct (traverse _ rs); cbn; [done|]. congruence.
        - unfold to_year in Ey. destruct (to_datetime (r_date r)); congruence. }
      destruct (is_dict (r_country r0)).
      * pose proof (Hget "id") as H1. pose proof (Hget "value") as H2.
        destruct (traverse (fun r => get "id" (r_country r)) rs);
          [|cbn in E; congruence].
        destruct (traverse (fun r => get "value" (r_country r)) rs);
          [|cbn in E; congruence].
        cbn in E. destruct (traverse _ rs); [done|]. cbn in E. congruence.
      * cbn in E. destruct (traverse _ rs); [done|]. cbn in E. congruence.
    + intros E. unfold normalize. by rewrite E.
  - intros Hload Hempty.
    assert (Hp : fst (pipeline get_dataframe to_datetime w) = Raise KeyError).
    { unfold pipeline. destruct (load get_dataframe w) as [r w1]. simpl in *.
      subst r. simpl. unfold normalize. by rewrite Hempty. }
    split; [done|]. unfold import_module.
    destruct (pipeline get_dataframe to_datetime w) as [df1 w1]. simpl in Hp.
    by subst df1.
Qed.

Example empty_fetch_aborts_import :
  fst (import_module (fun _ => Ok {| raw_columns := [GDP; LIFE; WATER];
                                     raw_rows := [] |})
                     year_label empty_world)
  = Raise KeyError.
Proof. vm_compute. reflexivity. Qed.

Example bar_of_three :
  (fun figs => map b_iso2 (fig_data (snd figs)))
    <$> match update_figures (S := stable_sorter) df_three None None with
        | Ok figs => Some figs
        | Raise _ => None
        end
  = Some [Str "BB"; Str "CC"; Str "AA"].
Proof. vm_compute. reflexivity. Qed.

Example click_on_two_countries :
  (fun figs => (map sp_animation_group (fig_data (fst figs)),
                map b_iso2 (fig_data (snd figs))))
    <$> match update_figures (S := stable_sorter) df_three
                (click [Some [Str "AA"; Str "Aland"]; Some [Str "CC"; Str "Cimar"]])
                None with
        | Ok figs => Some figs
        | Raise _ => None
        end
  = Some ([Str "AA"; Str "AA"; Str "CC"; Str "CC"], [Str "CC"; Str "AA"]).
Proof. vm_compute. reflexivity. Qed.

(** ** Selection and filter *)

Lemma isin_elem values c : isin values c = true <-> c ∈ values.
Proof. unfold isin. apply bool_decide_eq_true. Qed.

Lemma filter_all {A} (p : A -> bool) (l : list A) :
  (forall a, a ∈ l -> p a = true) -> List.filter p l = l.
Proof.
  induction l as [|a l IH]; intros Hall; [done|]. simpl.
  rewrite Hall by left. f_equal. apply IH. intros b Hb. apply Hall. by right.
Qed.

Lemma filter_bool_prop {A} (p : A -> bool) (P : A -> Prop) `{forall a, Decision (P a)}
  (l : list A) :
  (forall a, p a = true <-> P a) -> List.filter p l = filter P l.
Proof.
  intros Hp. induction l as [|a l IH]; [done|]. simpl. rewrite filter_cons.
  destruct (decide (P a)) as [Ha|Ha].
  - apply Hp in Ha. rewrite Ha. by f_equal.
  - destruct (p a) eqn:E; [|done]. by apply Hp in E.
Qed.

Lemma filter_is_sublist {A} (p : A -> bool) (l : list A) :
  sublist (List.filter p l) l.
Proof.
  induction l as [|a l IH]; simpl; [constructor|].
  destruct (p a); by constructor.
Qed.

(** C4. With a non-empty selection the filtered table is the original one
    with exactly the rows whose [iso2] is selected kept, in order; every row
    left has its code in the selection; and selecting every code that occurs
    in the table changes nothing. *)
Theorem restrict_keeps_selected_rows (selected : list cell) (dff : list Row) :
  selected <> [] ->
  restrict selected dff = filter (fun r => iso2 r ∈ selected) dff
  /\ (forall r, r ∈ restrict selected dff <-> r ∈ dff /\ iso2 r ∈ selected)
  /\ Forall (fun r => iso2 r ∈ selected) (restrict selected dff)
  /\ sublist (restrict selected dff) dff
  /\ ((forall r, r ∈ dff -> iso2 r ∈ selected) -> restrict selected dff = dff)
  /\ restrict (map iso2 dff) dff = dff.
Proof.
  intros Hne.
  assert (Hr : restrict selected dff
               = List.filter (fun r => isin selected (iso2 r)) dff).
  { unfold restrict. by destruct selected. }
  assert (Hin : forall r, r ∈ restrict selected dff <-> r ∈ dff /\ iso2 r ∈ selected).
  { intros r. rewrite Hr, list_elem_of_In, filter_In, isin_elem.
    by rewrite <- list_elem_of_In. }
  split; [|split; [done|split; [|split; [|split]]]].
  - rewrite Hr. apply filter_bool_prop. intros r. apply isin_elem.
  - apply Forall_forall. intros r Hrin. by apply Hin.
  - rewrite Hr. apply filter_is_sublist.
  - intros Hall. rewrite Hr. apply filter_all. intros r Hrin.
    apply isin_elem. by apply Hall.
  - unfold restrict. destruct (map iso2 dff) eqn:E; [done|]. rewrite <- E.
    apply filter_all. intros r Hrin. apply isin_elem.
    apply list_elem_of_fmap. eauto.
Qed.

Lemma restrict_keeps_selected_rows_witness :
  [Str "AA"; Str "CC"] <> []
  /\ Forall (fun r => iso2 r ∈ [Str "AA"; Str "CC"])
            (restrict [Str "AA"; Str "CC"] (rows df_three)).
Proof.
  split; [discriminate|].
  apply (restrict_keeps_selected_rows [Str "AA"; Str "CC"] (rows df_three)).
  discriminate.
Defined.

(** ** What a render returns *)

Lemma df_head_sorted {A} (R : A -> A -> Prop) n (l : list A) :
  StronglySorted R l -> StronglySorted R (df_head n l).
Proof.
  intros Hs. unfold df_head. rewrite <- (firstn_skipn n l) in Hs.
  by apply StronglySorted_app_1_l in Hs.
Qed.

Lemma sorted_map {A B} (f : A -> B) (R : B -> B -> Prop) (l : list A) :
  StronglySorted (fun a b => R (f a) (f b)) l -> StronglySorted R (map f l).
Proof.
  induction 1 as [|a l _ IH Ha]; simpl; constructor; [done|].
  apply Forall_forall. intros b Hb. apply list_elem_of_fmap in Hb as (a' & -> & Ha').
  rewrite Forall_forall in Ha. by apply Ha.
Qed.

Lemma filter_nothing {A} (p : A -> bool) (l : list A) :
  (forall a, a ∈ l -> p a = false) -> List.filter p l = [].
Proof.
  induction l as [|a l IH]; intros Hall; [done|]. simpl.
  rewrite Hall by left. apply IH. intros b Hb. apply Hall. by right.
Qed.

Lemma filter_none_left {A} (p : A -> bool) (l : list A) :
  List.filter (fun a => negb (p a)) l = l -> List.filter p l = [].
Proof.
  intros E. pose proof (Permutation_length (filter_split p l)) as Hlen.
  rewrite length_app, E in Hlen.
  destruct (List.filter p l); [done|]. cbn in Hlen. lia.
Qed.

Lemma restrict_elem selected r rs : r ∈ restrict selected rs -> r ∈ rs.
Proof.
  unfold restrict. destruct selected; [done|]. intros Hr.
  apply list_elem_of_In, filter_In in Hr as [Hr _]. by apply list_elem_of_In.
Qed.

Lemma restrict_selected selected r rs :
  selected <> [] -> r ∈ restrict selected rs -> iso2 r ∈ selected.
Proof.
  intros Hne. unfold restrict. destruct selected as [|c sel]; [done|].
  rewrite list_elem_of_In, filter_In, isin_elem. tauto.
Qed.

Lemma restrict_singleton_elem c r rs :
  r ∈ rs -> iso2 r = c -> r ∈ restrict [c] rs.
Proof.
  intros Hr Hc. cbn. apply list_elem_of_In, filter_In. split.
  - by apply list_elem_of_In.
  - apply isin_elem, list_elem_of_singleton. done.
Qed.

Lemma restrict_groupable selected rs :
  forallb groupable rs = true -> forallb groupable (restrict selected rs) = true.
Proof.
  rewrite !forallb_forall. intros Hall r Hr. apply Hall.
  apply list_elem_of_In. apply list_elem_of_In in Hr. by eapply restrict_elem.
Qed.

Lemma restrict_code_within selected r r' rs :
  r ∈ restrict selected rs -> r' ∈ restrict [iso2 r] rs -> r' ∈ restrict selected rs.
Proof.
  intros Hr Hr'. pose proof (restrict_elem _ _ _ Hr') as Hin.
  destruct selected as [|c sel]; [done|].
  apply (restrict_selected [iso2 r]) in Hr'; [|done].
  apply list_elem_of_singleton in Hr'.
  apply (restrict_selected (c :: sel)) in Hr; [|done].
  unfold restrict. apply list_elem_of_In, filter_In. split.
  - by apply list_elem_of_In.
  - apply isin_elem. by rewrite Hr'.
Qed.

Lemma restrict_code_groupable selected r rs :
  forallb groupable (restrict selected rs) = true ->
  r ∈ restrict selected rs ->
  forallb groupable (restrict [iso2 r] rs) = true.
Proof.
  rewrite !forallb_forall. intros Hall Hr r' Hr'. apply Hall.
  apply list_elem_of_In. apply list_elem_of_In in Hr'.
  by apply (restrict_code_within selected r).
Qed.

Lemma drawn_elem r dff : r ∈ drawn dff <-> r ∈ dff /\ is_none (country_name r) = false.
Proof.
  unfold drawn. rewrite list_elem_of_In, filter_In, <- list_elem_of_In.
  destruct (is_none (country_name r)); cbn; intuition congruence.
Qed.

Lemma filter_water_columns (p : num -> bool) w rs :
  List.filter (fun b => p (b_value b)) (water_columns w rs)
  = water_columns w (List.filter (fun r => p (at_column w r)) rs).
Proof.
  unfold water_columns. induction rs as [|r rs IH]; [done|].
  cbn [map List.filter b_value]. destruct (p (at_column w r));
    cbn [map]; by rewrite IH.
Qed.

Section Ranking.
Context {S : Argsort} {A : Type}.
Variable key : A -> num.

Lemma reversed_present_is_Some (l : list A) :
  Forall (fun a => is_Some (key a))
         (rev (List.filter (fun a => negb (isna key a)) l)).
Proof.
  apply Forall_forall. intros a Ha. apply list_elem_of_In, in_rev in Ha.
  apply list_elem_of_In in Ha. revert a Ha. apply Forall_forall, present_is_Some.
Qed.

(** The sorted frame is the rows with a value, ranked, followed by the rows
    without one as the table has them. *)
Lemma sort_values_desc_ranked (l : list A) :
  exists ranked,
    sort_values_desc key l = ranked ++ List.filter (isna key) l
    /\ Permutation ranked (List.filter (fun a => negb (isna key a)) l)
    /\ StronglySorted (fun a b => descending (key a) (key b)) ranked
    /\ Forall (fun a => is_Some (key a)) ranked.
Proof.
  pose proof (reversed_present_is_Some l) as Hs.
  eexists. split; [reflexivity|].
  set (present := List.filter (fun a => negb (isna key a)) l) in *.
  assert (Hperm : Permutation (take_at (argsort (omap key (rev present))) (rev present))
                              (rev present)).
  { apply take_at_perm. rewrite <- (omap_length_Some key) by done.
    apply argsort_perm. }
  assert (Hsome : Forall (fun a => is_Some (key a))
                    (take_at (argsort (omap key (rev present))) (rev present))).
  { by rewrite Hperm. }
  split; [|split].
  - by rewrite <- Permutation_rev, Hperm, <- Permutation_rev.
  - apply sorted_keys_descending; [done|].
    rewrite take_at_omap by done. apply argsort_sorted.
  - by rewrite <- Permutation_rev.
Qed.
End Ranking.

Section RenderFacts.
Context {S : Argsort}.

Lemma water_frame_Ok cols dff w :
  column_index WATER cols = Ok w ->
  water_frame cols dff
  = Ok (df_head 15 (sort_values_desc b_value (water_columns w (latest dff)))).
Proof. intros E. unfold water_frame. by rewrite E. Qed.

Lemma scatter_Ok cols dff g l :
  NoDup cols ->
  column_index GDP cols = Ok g ->
  column_index LIFE cols = Ok l ->
  forallb groupable dff = true ->
  exists fig1,
    scatter cols dff = Ok fig1
    /\ fig_data fig1 = map (scatter_point g l) (drawn dff).
Proof.
  intros Hnd Hg Hl Hgr. unfold scatter, px_column.
  rewrite bool_decide_eq_true_2 by done. rewrite Hg. cbn. rewrite Hl. cbn.
  rewrite Hgr. eauto.
Qed.

Lemma scatter_inv cols dff fig1 :
  scatter cols dff = Ok fig1 ->
  NoDup cols /\ forallb groupable dff = true
  /\ exists g l,
       column_index GDP cols = Ok g /\ column_index LIFE cols = Ok l
       /\ fig_data fig1 = map (scatter_point g l) (drawn dff).
Proof.
  unfold scatter, px_column. intros E.
  destruct (bool_decide (NoDup cols)) eqn:Hnd; [|done].
  apply bool_decide_eq_true in Hnd.
  destruct (column_index GDP cols) as [g|]; [|done]. cbn in E.
  destruct (column_index LIFE cols) as [l|]; [|done]. cbn in E.
  destruct (forallb groupable dff) eqn:Hgr; [|done].
  inversion E; subst. cbn. eauto 10.
Qed.

Lemma update_figures_Ok df cs cb selected g l w :
  selection cs cb = Ok selected ->
  NoDup (columns df) ->
  column_index GDP (columns df) = Ok g ->
  column_index LIFE (columns df) = Ok l ->
  column_index WATER (columns df) = Ok w ->
  forallb groupable (restrict selected (rows df)) = true ->
  exists fig1,
    fig_data fig1 = map (scatter_point g l) (drawn (restrict selected (rows df)))
    /\ update_figures df cs cb
       = Ok (fig1,
             bar (df_head 15 (sort_values_desc b_value
                    (water_columns w (latest (restrict selected (rows df))))))).
Proof.
  intros Hs Hnd Hg Hl Hw Hgr.
  destruct (scatter_Ok _ _ g l Hnd Hg Hl Hgr) as (fig1 & Hsc & Hd1).
  exists fig1. split; [done|]. unfold update_figures. rewrite Hs. cbn.
  rewrite Hsc. cbn. by rewrite (water_frame_Ok _ _ w Hw).
Qed.

Lemma update_figures_inv df cs cb fig1 fig2 :
  update_figures df cs cb = Ok (fig1, fig2) ->
  exists selected g l w,
    selection cs cb = Ok selected
    /\ NoDup (columns df)
    /\ forallb groupable (restrict selected (rows df)) = true
    /\ column_index GDP (columns df) = Ok g
    /\ column_index LIFE (columns df) = Ok l
    /\ column_index WATER (columns df) = Ok w
    /\ fig_data fig1 = map (scatter_point g l) (drawn (restrict selected (rows df)))
    /\ fig_data fig2
       = df_head 15 (sort_values_desc b_value
                       (water_columns w (latest (restrict selected (rows df))))).
Proof.
  unfold update_figures. intros E.
  destruct (selection cs cb) as [sel|]; [|done]. cbn in E.
  destruct (scatter (columns df) (restrict sel (rows df))) as [f1|] eqn:Esc; [|done].
  cbn in E. apply scatter_inv in Esc as (Hnd & Hgr & g & l & Hg & Hl & Hd1).
  unfold water_frame in E.
  destruct (column_index WATER (columns df)) as [w|]; [|done]. cbn in E.
  inversion E; subst. exists sel, g, l, w. done.
Qed.

Lemma points_are_selected selected g l rs :
  selected <> [] ->
  Forall (fun p => sp_animation_group p ∈ selected)
         (map (scatter_point g l) (drawn (restrict selected rs))).
Proof.
  intros Hne. apply Forall_forall. intros p Hp.
  apply list_elem_of_fmap in Hp as (r & -> & Hr). cbn.
  apply drawn_elem in Hr as [Hr _]. by apply (restrict_selected _ _ rs).
Qed.

Lemma bars_are_selected selected w rs :
  selected <> [] ->
  Forall (fun b => b_iso2 b ∈ selected)
         (df_head 15 (sort_values_desc b_value
                        (water_columns w (latest (restrict selected rs))))).
Proof.
  intros Hne. apply Forall_forall. intros b Hb. unfold df_head in Hb.
  apply (sublist_subseteq _ _ (sublist_take _ _)) in Hb.
  rewrite (sort_values_desc_perm b_value _) in Hb.
  apply list_elem_of_fmap in Hb as (r & -> & Hr). cbn.
  unfold latest in Hr. apply list_elem_of_In, filter_In in Hr as [Hr _].
  apply list_elem_of_In in Hr. by apply (restrict_selected _ _ rs).
Qed.

(** After a click that selects something, both figures show selected
    countries only. *)
Lemma figures_show_selected_only df cs cb selected g l w :
  selection cs cb = Ok selected -> selected <> [] ->
  NoDup (columns df) ->
  column_index GDP (columns df) = Ok g ->
  column_index LIFE (columns df) = Ok l ->
  column_index WATER (columns df) = Ok w ->
  forallb groupable (restrict selected (rows df)) = true ->
  exists fig1 fig2,
    update_figures df cs cb = Ok (fig1, fig2)
    /\ Forall (fun p => sp_animation_group p ∈ selected) (fig_data fig1)
    /\ Forall (fun b => b_iso2 b ∈ selected) (fig_data fig2).
Proof.
  intros Hs Hne Hnd Hg Hl Hw Hgr.
  destruct (update_figures_Ok df cs cb selected g l w Hs Hnd Hg Hl Hw Hgr)
    as (fig1 & Hd1 & E).
  eexists _, _. split; [exact E|]. cbn [fig_data bar]. rewrite Hd1. split.
  - by apply points_are_selected.
  - by apply bars_are_selected.
Qed.
End RenderFacts.

(** C5. Only one payload is read in a cycle, and the scatter chart's comes
    first.  When the scatter payload carries a code on each of its points,
    those codes are the selection and the cycle is the render of the table
    filtered by them, whatever the bar payload holds: the scatter chart
    shows the selected rows that have a name, and with a non-empty selection
    both charts show selected countries only.  The bar payload is read only
    when there is no scatter payload.  When both are absent the selection is
    empty and the scatter chart shows every row of the table that has a
    name. *)
Theorem scatter_click_has_priority `{S : Argsort} (df : Frame)
  (cs : clickData) (cb : option clickData) (codes : list cell) :
  Forall2 (fun pt c => exists rest, customdata pt = Some (c :: rest))
          (points cs) codes ->
  selection (Some cs) cb = Ok codes
  /\ update_figures df (Some cs) cb
     = (fig1 ← scatter (columns df) (restrict codes (rows df));
        water_df ← water_frame (columns df) (restrict codes (rows df));
        Ok (fig1, bar water_df))
  /\ (forall fig1 fig2,
        update_figures df (Some cs) cb = Ok (fig1, fig2) ->
        map sp_customdata (fig_data fig1)
        = map (fun r => [iso2 r; country_name r])
              (drawn (restrict codes (rows df)))
        /\ water_frame (columns df) (restrict codes (rows df)) = Ok (fig_data fig2)
        /\ (codes <> [] ->
            Forall (fun p => sp_animation_group p ∈ codes) (fig_data fig1)
            /\ Forall (fun b => b_iso2 b ∈ codes) (fig_data fig2)))
  /\ (forall cb', selection None (Some cb') = traverse customdata0 (points cb'))
  /\ selection None None = Ok []
  /\ (forall fig1 fig2,
        update_figures df None None = Ok (fig1, fig2) ->
        map sp_customdata (fig_data fig1)
        = map (fun r => [iso2 r; country_name r]) (drawn (rows df))
        /\ water_frame (columns df) (rows df) = Ok (fig_data fig2)).
Proof.
  intros Hcodes.
  assert (Hsel : selection (Some cs) cb = Ok codes).
  { cbn. apply traverse_intro. eapply Forall2_impl; [exact Hcodes|].
    intros pt c [rest E]. unfold customdata0. by rewrite E. }
  split; [done|]. split; [|split; [|split; [done|split; [done|]]]].
  - unfold update_figures. by rewrite Hsel.
  - intros fig1 fig2 E.
    apply update_figures_inv in E
      as (sel & g & l & w & Hs & _ & _ & _ & _ & Hw & Hd1 & Hd2).
    rewrite Hsel in Hs. inversion Hs; subst sel.
    split; [by rewrite Hd1, map_map|].
    split; [by rewrite (water_frame_Ok _ _ w Hw), Hd2|].
    intros Hne. rewrite Hd1, Hd2. split.
    + by apply points_are_selected.
    + by apply bars_are_selected.
  - intros fig1 fig2 E.
    apply update_figures_inv in E
      as (sel & g & l & w & Hs & _ & _ & _ & _ & Hw & Hd1 & Hd2).
    inversion Hs; subst sel. cbn [restrict] in Hd1, Hd2.
    split; [by rewrite Hd1, map_map|].
    by rewrite (water_frame_Ok _ _ w Hw), Hd2.
Qed.

Lemma scatter_click_has_priority_witness :
  selection (click [Some [Str "AA"; Str "Aland"]])
            (click [Some [Str "BB"; Str "Boria"]]) = Ok [Str "AA"]
  /\ update_figures (S := stable_sorter) df_three
       (click [Some [Str "AA"; Str "Aland"]]) (click [Some [Str "BB"; Str "Boria"]])
     = (fig1 ← scatter (columns df_three) (restrict [Str "AA"] (rows df_three));
        water_df ← water_frame (S := stable_sorter) (columns df_three)
                     (restrict [Str "AA"] (rows df_three));
        Ok (fig1, bar water_df)).
Proof.
  pose proof (scatter_click_has_priority (S := stable_sorter) df_three
                {| points := [ {| customdata := Some [Str "AA"; Str "Aland"] |} ] |}
                (click [Some [Str "BB"; Str "Boria"]]) [Str "AA"]) as H.
  destruct H as (H1 & H2 & _).
  - constructor; [by eexists|constructor].
  - split; [exact H1|exact H2].
Defined.

Example both_clicked :
  (fun figs => (map sp_animation_group (fig_data (fst figs)),
                map b_iso2 (fig_data (snd figs))))
    <$> match update_figures (S := stable_sorter) df_three
                (click [Some [Str "AA"; Str "Aland"]])
                (click [Some [Str "BB"; Str "Boria"]]) with
        | Ok figs => Some figs
        | Raise _ => None
        end
  = Some ([Str "AA"; Str "AA"], [Str "AA"]).
Proof. vm_compute. reflexivity. Qed.

(** ** The bar chart *)

(** C6, as the code has it.  In every cycle that returns figures, the bar
    chart's data is the frame computed from the (possibly filtered) table.
    It holds first the rows that report a value, exactly min(15, r) of them
    and in non-increasing order of the value, and then rows that report
    none, min(15 - r, u) of them, where r and u count the rows of the table
    whose year is [end_year] with and without a value: min(15, r + u) rows
    in all, each taken from that year's rows. *)
Theorem bar_chart_has_top_rows `{S : Argsort} (df : Frame)
  (cs cb : option clickData) (selected : list cell) (w : nat)
  (fig1 : Figure ScatterPoint) (fig2 : Figure BarRow) :
  selection cs cb = Ok selected ->
  column_index WATER (columns df) = Ok w ->
  update_figures df cs cb = Ok (fig1, fig2) ->
  let dff := restrict selected (rows df) in
  let with_value := List.filter (fun b => negb (isna b_value b)) (fig_data fig2) in
  let without := List.filter (isna b_value) (fig_data fig2) in
  water_frame (columns df) dff = Ok (fig_data fig2)
  /\ fig_data fig2 = with_value ++ without
  /\ length with_value = Nat.min 15 (length (reported w dff))
  /\ length without
     = Nat.min (15 - length (reported w dff))
               (length (latest dff) - length (reported w dff))
  /\ length (fig_data fig2) = Nat.min 15 (length (latest dff))
  /\ StronglySorted descending (map b_value (fig_data fig2))
  /\ exists others,
       Permutation (fig_data fig2 ++ others) (water_columns w (latest dff)).
Proof.
  intros Hs Hw E. cbv zeta.
  apply update_figures_inv in E
    as (sel & g & l & w' & Hs' & _ & _ & _ & _ & Hw' & _ & Hd2).
  rewrite Hs in Hs'. inversion Hs'; subst sel.
  rewrite Hw in Hw'. inversion Hw'; subst w'.
  set (dff := restrict selected (rows df)) in *.
  set (water_df := water_columns w (latest dff)) in *.
  destruct (sort_values_desc_ranked b_value water_df)
    as (ranked & Hsort & Hperm & Hsorted & Hsome).
  set (unvalued := List.filter (isna b_value) water_df) in *.
  assert (Hranked : length ranked = length (reported w dff)).
  { rewrite Hperm. unfold water_df, reported, isna.
    rewrite (filter_water_columns
               (fun x => negb match x with None => true | Some _ => false end) w).
    apply length_map. }
  assert (Hunvalued : length unvalued = length (latest dff) - length (reported w dff)).
  { pose proof (Permutation_length (filter_split (isna b_value) water_df)) as Hlen.
    rewrite length_app, <- Hperm, Hranked in Hlen. fold unvalued in Hlen.
    assert (Hall : length water_df = length (latest dff)).
    { unfold water_df, water_columns. apply length_map. }
    lia. }
  assert (Hdata : fig_data fig2
                  = firstn 15 ranked ++ firstn (15 - length ranked) unvalued).
  { rewrite Hd2, Hsort. unfold df_head. apply firstn_app. }
  assert (Hvalued : forall b, b ∈ firstn 15 ranked -> isna b_value b = false).
  { intros b Hb. apply (sublist_subseteq _ _ (sublist_take _ _)) in Hb.
    rewrite Forall_forall in Hsome. destruct (Hsome b Hb) as [q Hq].
    unfold isna. by rewrite Hq. }
  assert (Hnone : forall b, b ∈ firstn (15 - length ranked) unvalued ->
                            isna b_value b = true).
  { intros b Hb. apply (sublist_subseteq _ _ (sublist_take _ _)) in Hb.
    by apply list_elem_of_In, filter_In in Hb as [_ Hb]. }
  assert (Hwith : List.filter (fun b => negb (isna b_value b)) (fig_data fig2)
                  = firstn 15 ranked).
  { rewrite Hdata, List.filter_app, filter_all, filter_nothing.
    - apply app_nil_r.
    - intros b Hb. by rewrite (Hnone b Hb).
    - intros b Hb. by rewrite (Hvalued b Hb). }
  assert (Hwithout : List.filter (isna b_value) (fig_data fig2)
                     = firstn (15 - length ranked) unvalued).
  { rewrite Hdata, List.filter_app, filter_nothing, filter_all; [done|done|done]. }
  rewrite Hwith, Hwithout.
  split; [by rewrite (water_frame_Ok _ _ w Hw), Hd2|].
  split; [done|].
  split; [by rewrite length_firstn, Hranked|].
  split; [by rewrite length_firstn, Hranked, Hunvalued|].
  split; [|split].
  - rewrite Hd2. unfold df_head. rewrite length_firstn, sort_values_desc_length.
    unfold water_df, water_columns. by rewrite length_map.
  - rewrite Hd2. apply sorted_map, df_head_sorted, sort_values_desc_sorted.
  - exists (skipn 15 (sort_values_desc b_value water_df)). rewrite Hd2.
    unfold df_head. rewrite firstn_skipn. apply sort_values_desc_perm.
Qed.

Lemma bar_chart_has_top_rows_witness :
  exists fig1 fig2,
    update_figures (S := stable_sorter) df_three
      (click [Some [Str "AA"; Str "Aland"]; Some [Str "CC"; Str "Cimar"]]) None
    = Ok (fig1, fig2)
    /\ let dff := restrict [Str "AA"; Str "CC"] (rows df_three) in
       let with_value :=
         List.filter (fun b => negb (isna b_value b)) (fig_data fig2) in
       let without := List.filter (isna b_value) (fig_data fig2) in
       water_frame (S := stable_sorter) (columns df_three) dff = Ok (fig_data fig2)
       /\ fig_data fig2 = with_value ++ without
       /\ length with_value = Nat.min 15 (length (reported 2 dff))
       /\ length without
          = Nat.min (15 - length (reported 2 dff))
                    (length (latest dff) - length (reported 2 dff))
       /\ length (fig_data fig2) = Nat.min 15 (length (latest dff))
       /\ StronglySorted descending (map b_value (fig_data fig2))
       /\ exists others,
            Permutation (fig_data fig2 ++ others) (water_columns 2 (latest dff)).
Proof.
  eexists _, _.
  refine ((fun E => conj E
             (bar_chart_has_top_rows (S := stable_sorter) df_three
                (click [Some [Str "AA"; Str "Aland"]; Some [Str "CC"; Str "Cimar"]])
                None [Str "AA"; Str "CC"] 2 _ _ eq_refl eq_refl E)) _).
  vm_compute. reflexivity.
Defined.

(** C6 fails as stated: a country without a clean-water figure for 2020 is
    still a row of the frame the bar chart is made of, although no country
    reports a value. *)
Lemma unreported_row_is_charted :
  exists fig1 fig2,
    update_figures (S := stable_sorter) df_unreported None None = Ok (fig1, fig2)
    /\ length (fig_data fig2) = 1
    /\ Nat.min 15 (length (reported 2 (rows df_unreported))) = 0.
Proof. eexists _, _. split; [vm_compute; reflexivity|]. split; reflexivity. Qed.

(** ** What a click selects *)

(** A click on a drawn point or bar hands back that row's code. *)
Lemma bar_click_selects_code (b : BarRow) :
  customdata0 {| customdata := Some (bar_customdata b) |} = Ok (b_iso2 b).
Proof. reflexivity. Qed.

Lemma scatter_click_selects_code (x y : nat) (r : Row) :
  customdata0 {| customdata := Some (sp_customdata (scatter_point x y r)) |}
  = Ok (iso2 r).
Proof. reflexivity. Qed.

(** ** Clicks that select nothing *)

Lemma traverse_Raise {A B} (f : A -> result B) (l : list A) x e :
  x ∈ l -> f x = Raise e -> exists e', traverse f l = Raise e'.
Proof.
  induction 1 as [x l|x y l _ IH]; intros Hx; simpl.
  - rewrite Hx. eauto.
  - destruct (f y); [|by eauto]. destruct (IH Hx) as [e' ->]. eauto.
Qed.

(** C8, as the code has it.  A cycle whose extracted selection is empty is
    the render of the whole, unfiltered table: if it returns figures, the
    scatter chart shows every row of the table that has a name and the bar
    chart's data is the frame computed from all rows, and in every case it
    returns what the first render returns.  Such is a payload with an empty
    points list, on either chart.  A clicked point without custom data is
    not such a case: extracting its code raises, and the cycle ends with
    that exception instead of figures. *)
Theorem empty_selection_shows_whole_table `{S : Argsort} (df : Frame)
  (cs cb : option clickData) :
  selection cs cb = Ok [] ->
  update_figures df cs cb
  = (fig1 ← scatter (columns df) (rows df);
     water_df ← water_frame (columns df) (rows df);
     Ok (fig1, bar water_df))
  /\ update_figures df cs cb = update_figures df None None
  /\ (forall fig1 fig2,
        update_figures df cs cb = Ok (fig1, fig2) ->
        map sp_customdata (fig_data fig1)
        = map (fun r => [iso2 r; country_name r]) (drawn (rows df))
        /\ water_frame (columns df) (rows df) = Ok (fig_data fig2))
  /\ (forall cb', update_figures df (click []) cb' = update_figures df None None)
  /\ update_figures df None (click []) = update_figures df None None
  /\ (forall pts pt cb', pt ∈ pts -> customdata pt = None ->
        exists e, update_figures df (Some {| points := pts |}) cb' = Raise e)
  /\ (forall cb', update_figures df (click [None]) cb' = Raise KeyError).
Proof.
  intros Hs.
  assert (Hall : update_figures df cs cb
                 = (fig1 ← scatter (columns df) (rows df);
                    water_df ← water_frame (columns df) (rows df);
                    Ok (fig1, bar water_df))).
  { unfold update_figures. by rewrite Hs. }
  split; [done|]. split; [by rewrite Hall|]. split; [|repeat split].
  - intros fig1 fig2 E.
    apply update_figures_inv in E
      as (sel & g & l & w & Hs' & _ & _ & _ & _ & Hw & Hd1 & Hd2).
    rewrite Hs in Hs'. inversion Hs'; subst sel. cbn [restrict] in Hd1, Hd2.
    split; [by rewrite Hd1, map_map|].
    by rewrite (water_frame_Ok _ _ w Hw), Hd2.
  - intros pts pt cb' Hin Hpt. unfold update_figures. cbn [selection points].
    destruct (traverse_Raise customdata0 pts pt KeyError Hin) as [e ->]; [|by eauto].
    unfold customdata0. by rewrite Hpt.
Qed.

Lemma empty_selection_shows_whole_table_witness :
  update_figures (S := stable_sorter) df_three (click []) None
  = (fig1 ← scatter (columns df_three) (rows df_three);
     water_df ← water_frame (S := stable_sorter) (columns df_three) (rows df_three);
     Ok (fig1, bar water_df)).
Proof.
  apply (empty_selection_shows_whole_table (S := stable_sorter) df_three
           (click []) None).
  reflexivity.
Defined.

Example empty_click_draws_every_country :
  (fun figs => (map sp_animation_group (fig_data (fst figs)),
                map b_iso2 (fig_data (snd figs))))
    <$> match update_figures (S := stable_sorter) df_three (click []) None with
        | Ok figs => Some figs
        | Raise _ => None
        end
  = Some ([Str "AA"; Str "AA"; Str "BB"; Str "BB"; Str "CC"; Str "CC"],
          [Str "BB"; Str "CC"; Str "AA"]).
Proof. vm_compute. reflexivity. Qed.

(** C8 fails as stated: a click on a point that carries no custom data does
    not fall back to the whole table; the cycle raises [KeyError], while the
    unfiltered render of the same table succeeds. *)
Lemma click_without_customdata_raises :
  update_figures (S := stable_sorter) df_three (click [None]) None = Raise KeyError
  /\ exists figs, update_figures (S := stable_sorter) df_three None None = Ok figs.
Proof. split; [reflexivity|]. eexists. vm_compute. reflexivity. Qed.

(** * Further properties of the script *)

(** ** The cache file and the request log *)

(** X1. [load] writes to no path but the cache path, never replaces a cache
    file that exists, and only ever appends to the log of requests. *)
Theorem load_touches_only_the_cache {blob} `{Pickle blob}
  (get_dataframe : request -> result RawFrame) (w : world blob) :
  (forall p, p <> cache_file -> fs (snd (load get_dataframe w)) !! p = fs w !! p)
  /\ (forall b, fs w !! cache_file = Some b ->
                fs (snd (load get_dataframe w)) !! cache_file = Some b)
  /\ sent w `prefix_of` sent (snd (load get_dataframe w)).
Proof.
  unfold load. destruct (fs w !! cache_file) as [b|] eqn:E; cbn.
  - split; [done|split; [intros; congruence|reflexivity]].
  - destruct (get_dataframe the_request) as [t|e]; cbn.
    + split; [|split; [intros; congruence|by apply prefix_app_r]].
      intros p Hp. by rewrite lookup_insert_ne.
    + split; [done|split; [intros; congruence|by apply prefix_app_r]].
Qed.

(** X2. Once [load] has returned a table, loading again returns that table
    and changes nothing, whatever the network would answer: the cache is
    never refreshed. *)
Theorem loaded_table_is_kept {blob} `{Pickle blob}
  (get_dataframe get_dataframe' : request -> result RawFrame)
  (w : world blob) (t : RawFrame) :
  fst (load get_dataframe w) = Ok t ->
  load get_dataframe' (snd (load get_dataframe w))
  = (Ok t, snd (load get_dataframe w)).
Proof.
  intros Hok. destruct (load_leaves_cache get_dataframe w t Hok) as (b & Hb & Hr).
  by rewrite (load_cached _ _ b Hb), Hr.
Qed.

Lemma loaded_table_is_kept_witness :
  load (fun _ => Raise NetworkError)
       (snd (load (fun _ => Ok raw_flat) empty_world))
  = (Ok raw_flat, snd (load (fun _ => Ok raw_flat) empty_world)).
Proof.
  apply (loaded_table_is_kept (fun _ => Ok raw_flat) (fun _ => Raise NetworkError)
           empty_world raw_flat).
  reflexivity.
Defined.

(** X3. A fetch that fails leaves no cache file behind, so the next [load]
    asks the World Bank again; if that succeeds the table is cached then,
    and two requests have been sent in all. *)
Theorem failed_fetch_is_not_cached {blob} `{Pickle blob}
  (get_dataframe get_dataframe' : request -> result RawFrame)
  (w : world blob) (e : error) (t : RawFrame) :
  fs w !! cache_file = None ->
  get_dataframe the_request = Raise e ->
  get_dataframe' the_request = Ok t ->
  fst (load get_dataframe w) = Raise e
  /\ fs (snd (load get_dataframe w)) = fs w
  /\ load get_dataframe' (snd (load get_dataframe w))
     = (Ok t, {| fs := <[cache_file := to_pickle t]> (fs w);
                 sent := (sent w ++ [the_request]) ++ [the_request] |}).
Proof.
  intros Hmiss Hfail Hgood. unfold load at 1 2 4. rewrite Hmiss, Hfail. cbn.
  repeat split. unfold load. cbn. by rewrite Hmiss, Hgood.
Qed.

Lemma failed_fetch_is_not_cached_witness :
  fst (load (fun _ => Raise NetworkError) empty_world) = Raise NetworkError
  /\ fs (snd (load (fun _ => Raise NetworkError) empty_world)) = fs empty_world
  /\ load (fun _ => Ok raw_flat) (snd (load (fun _ => Raise NetworkError) empty_world))
     = (Ok raw_flat,
        {| fs := <[cache_file := to_pickle raw_flat]> (fs empty_world);
           sent := (sent empty_world ++ [the_request]) ++ [the_request] |}).
Proof.
  apply (failed_fetch_is_not_cached (fun _ => Raise NetworkError)
           (fun _ => Ok raw_flat) empty_world NetworkError raw_flat);
    reflexivity.
Defined.

(** X4. A cache file that cannot be unpickled stops the import with the
    unpickling error: nothing is fetched in its place and the file stays as
    it is. *)
Theorem corrupt_cache_aborts_import {blob} `{Pickle blob}
  (get_dataframe : request -> result RawFrame)
  (to_datetime : string -> option datetime) (w : world blob) (b : blob) (e : error) :
  fs w !! cache_file = Some b ->
  read_pickle b = Raise e ->
  import_module get_dataframe to_datetime w = (Raise e, w).
Proof.
  intros Hb He. unfold import_module, pipeline.
  rewrite (load_cached _ _ b Hb), He. done.
Qed.

Lemma corrupt_cache_aborts_import_witness :
  import_module (H := fragile_pickle) (fun _ => Ok raw_flat) year_label
    {| fs := {[ cache_file := None ]}; sent := [] |}
  = (Raise UnpicklingError, {| fs := {[ cache_file := None ]}; sent := [] |}).
Proof.
  apply (corrupt_cache_aborts_import (H := fragile_pickle) (fun _ => Ok raw_flat)
           year_label {| fs := {[ cache_file := None ]}; sent := [] |} None
           UnpicklingError);
    reflexivity.
Defined.

(** X5. When the first copy of the pipeline yields a table, importing the
    module ends in the state that copy left and with that same table: the
    second copy reads the cache back and normalises it to the same result.
    The only thing in between is the first copy's preview print, which needs
    the GDP and life-expectancy columns and raises [KeyError] without them. *)
Theorem import_runs_like_one_pipeline {blob} `{Pickle blob}
  (get_dataframe : request -> result RawFrame)
  (to_datetime : string -> option datetime) (w : world blob) (df : Frame) :
  fst (pipeline get_dataframe to_datetime w) = Ok df ->
  import_module get_dataframe to_datetime w
  = (if bool_decide (GDP ∈ columns df) && bool_decide (LIFE ∈ columns df)
     then Ok df else Raise KeyError,
     snd (pipeline get_dataframe to_datetime w)).
Proof.
  intros Hp. unfold import_module.
  destruct (pipeline get_dataframe to_datetime w) as [r w1] eqn:E. cbn in Hp.
  subst r. cbn. unfold print_head.
  destruct (bool_decide (GDP ∈ columns df) && bool_decide (LIFE ∈ columns df));
    [|done].
  unfold pipeline in E |- *.
  destruct (load get_dataframe w) as [raw w1'] eqn:El.
  inversion E as [[Hn Hw]]. subst w1'.
  destruct raw as [raw|e]; [|done].
  destruct (load_leaves_cache get_dataframe w raw) as (b & Hb & Hr);
    [by rewrite El|].
  rewrite El in Hb. cbn in Hb. rewrite (load_cached _ _ b Hb), Hr. done.
Qed.

Lemma import_runs_like_one_pipeline_witness :
  exists df,
    fst (pipeline (fun _ => Ok raw_structured) year_label empty_world) = Ok df
    /\ import_module (fun _ => Ok raw_structured) year_label empty_world
       = (if bool_decide (GDP ∈ columns df) && bool_decide (LIFE ∈ columns df)
          then Ok df else Raise KeyError,
          snd (pipeline (fun _ => Ok raw_structured) year_label empty_world)).
Proof.
  eexists. split; [vm_compute; reflexivity|].
  apply (import_runs_like_one_pipeline (fun _ => Ok raw_structured) year_label
           empty_world).
  vm_compute. reflexivity.
Defined.

(** ** Where the normaliser stops *)

(** A traversal whose steps can raise only [e0] either raises [e0], some
    element being at fault, or succeeds on every element. *)
Lemma traverse_cases {A B} (f : A -> result B) (e0 : error) (l : list A) :
  (forall x e, f x = Raise e -> e = e0) ->
  (traverse f l = Raise e0 /\ Exists (fun x => f x = Raise e0) l)
  \/ (exists ys, traverse f l = Ok ys /\ Forall (fun x => exists y, f x = Ok y) l).
Proof.
  intros Honly. induction l as [|x l IH]; cbn.
  - right. eexists. split; [done|constructor].
  - destruct (f x) as [y|e] eqn:Ex; cbn.
    + destruct IH as [[-> Hex]|(ys & -> & Hall)]; cbn.
      * left. split; [done|by constructor].
      * right. eexists. split; [done|]. constructor; eauto.
    + pose proof (Honly _ _ Ex) as ->. left. split; [done|].
      by apply Exists_cons_hd.
Qed.

Lemma get_raises_AttributeError k x e : get k x = Raise e -> e = AttributeError.
Proof. destruct x; cbn; congruence. Qed.

Lemma to_year_raises_ValueError to_datetime s e :
  to_year to_datetime s = Raise e -> e = ValueError.
Proof. unfold to_year. destruct (to_datetime s); congruence. Qed.

Lemma get_Raise_iff k x : get k x = Raise AttributeError <-> is_dict x = false.
Proof. destruct x; cbn; split; congruence. Qed.

Lemma to_year_Raise_iff to_datetime s :
  to_year to_datetime s = Raise ValueError <-> to_datetime s = None.
Proof. unfold to_year. destruct (to_datetime s); split; congruence. Qed.

(** The outcome of [normalize] on a table with at least one row, by the
    three conditions it meets in turn. *)
Lemma normalize_outcome to_datetime cols r0 rest :
  let rs := r0 :: rest in
  let raw := {| raw_columns := cols; raw_rows := rs |} in
  (is_dict (r_country r0) = true
   /\ Exists (fun r => is_dict (r_country r) = false) rs
   /\ normalize to_datetime raw = Raise AttributeError)
  \/ ((is_dict (r_country r0) = true ->
       Forall (fun r => is_dict (r_country r) = true) rs)
      /\ Exists (fun r => to_datetime (r_date r) = None) rs
      /\ normalize to_datetime raw = Raise ValueError)
  \/ ((is_dict (r_country r0) = true ->
       Forall (fun r => is_dict (r_country r) = true) rs)
      /\ Forall (fun r => to_datetime (r_date r) <> None) rs
      /\ exists df, normalize to_datetime raw = Ok df).
Proof.
  cbv zeta. unfold normalize.
  cbn [raw_rows raw_columns loc0_country mbind result_bind].
  generalize (r0 :: rest). intros rs.
  assert (Hdicts : forall k,
             (traverse (fun r => get k (r_country r)) rs = Raise AttributeError
              /\ Exists (fun r => is_dict (r_country r) = false) rs)
             \/ (exists ys, traverse (fun r => get k (r_country r)) rs = Ok ys
                 /\ Forall (fun r => is_dict (r_country r) = true) rs)).
  { intros k.
    destruct (traverse_cases (fun r => get k (r_country r)) AttributeError rs)
      as [[E Hex]|(ys & E & Hall)].
    - intros r e. apply get_raises_AttributeError.
    - left. split; [done|]. eapply Exists_impl; [exact Hex|].
      intros r. apply get_Raise_iff.
    - right. eexists. split; [done|]. eapply Forall_impl; [exact Hall|].
      intros r [y Hy]. cbn in Hy. by destruct (r_country r). }
  assert (Hyears :
             (traverse (fun r => to_year to_datetime (r_date r)) rs = Raise ValueError
              /\ Exists (fun r => to_datetime (r_date r) = None) rs)
             \/ (exists ys, traverse (fun r => to_year to_datetime (r_date r)) rs = Ok ys
                 /\ Forall (fun r => to_datetime (r_date r) <> None) rs)).
  { destruct (traverse_cases (fun r => to_year to_datetime (r_date r)) ValueError rs)
      as [[E Hex]|(ys & E & Hall)].
    - intros r e. apply to_year_raises_ValueError.
    - left. split; [done|]. eapply Exists_impl; [exact Hex|].
      intros r. apply to_year_Raise_iff.
    - right. eexists. split; [done|]. eapply Forall_impl; [exact Hall|].
      intros r [y Hy]. cbn in Hy. unfold to_year in Hy.
      by destruct (to_datetime (r_date r)). }
  destruct (is_dict (r_country r0)) eqn:Efirst.
  - destruct (Hdicts "id") as [[-> Hex]|(codes & -> & Hall)]; cbn.
    { left. done. }
    destruct (Hdicts "value") as [[_ Hex]|(names & -> & _)]; cbn.
    { exfalso. apply Exists_exists in Hex as (r & Hr & Hnd).
      rewrite Forall_forall in Hall. specialize (Hall r Hr). congruence. }
    destruct Hyears as [[-> Hex]|(ys & -> & Hok)]; cbn.
    + right. left. done.
    + right. right. split; [done|]. split; [done|]. eauto.
  - destruct Hyears as [[-> Hex]|(ys & -> & Hok)]; cbn.
    + right. left. done.
    + right. right. split; [done|]. split; [done|]. eauto.
Qed.

(** X6. [normalize] raises [AttributeError] exactly when the first row's
    country is a dict and some row's country is not: the shape read off the
    first row is applied to every row, and a row of the other shape has no
    [get]. *)
Theorem normalize_raises_AttributeError_iff
  (to_datetime : string -> option datetime) (raw : RawFrame) :
  normalize to_datetime raw = Raise AttributeError
  <-> structured raw = true
      /\ Exists (fun r => is_dict (r_country r) = false) (raw_rows raw).
Proof.
  destruct raw as [cols [|r0 rest]].
  - cbn. split; [done|]. by intros [? _].
  - unfold structured. cbn [raw_rows].
    destruct (normalize_outcome to_datetime cols r0 rest)
      as [(Hd & Hex & ->)|[(Hd & Hex & ->)|(Hd & Hall & df & ->)]].
    + done.
    + split; [done|]. intros [Hfirst Hnd]. exfalso.
      apply Exists_exists in Hnd as (r & Hr & Hnd).
      specialize (Hd Hfirst). rewrite Forall_forall in Hd.
      specialize (Hd r Hr). congruence.
    + split; [done|]. intros [Hfirst Hnd]. exfalso.
      apply Exists_exists in Hnd as (r & Hr & Hnd).
      specialize (Hd Hfirst). rewrite Forall_forall in Hd.
      specialize (Hd r Hr). congruence.
Qed.



Example string_first_accepts_dicts :
  (fun df => map iso2 (rows df))
    <$> match normalize year_label
                {| raw_columns := [WATER];
                   raw_rows := [ {| r_country := Str "Kenya"; r_date := "2020";
                                    r_data := [None] |};
                                 {| r_country := us; r_date := "2020";
                                    r_data := [None] |} ] |} with
        | Ok df => Some df
        | Raise _ => None
        end
  = Some [Str "Kenya"; us].
Proof. vm_compute. reflexivity. Qed.

(** ** Renaming *)

Lemma indicators_lookup c label :
  indicators !! c = Some label -> indicators !! label = None.
Proof.
  unfold indicators. intros E.
  apply lookup_insert_Some in E as [[_ <-]|[_ E]]; [by vm_compute|].
  apply lookup_insert_Some in E as [[_ <-]|[_ E]]; [by vm_compute|].
  apply lookup_insert_Some in E as [[_ <-]|[_ E]]; [by vm_compute|].
  by rewrite lookup_empty in E.
Qed.

Lemma rename_indicators_idem cols :
  rename indicators (rename indicators cols) = rename indicators cols.
Proof.
  unfold rename. rewrite map_map. apply map_ext. intros c.
  destruct (indicators !! c) as [label|] eqn:E; cbn.
  - by rewrite (indicators_lookup _ _ E).
  - by rewrite E.
Qed.

(** X9. Renaming is idempotent, no label being itself an indicator code:
    a fetched or cached table whose columns already carry the labels is
    normalised to the same observation table as one that carries the
    codes. *)
Theorem normalize_ignores_earlier_rename
  (to_datetime : string -> option datetime) (cols : list string)
  (rs : list RawRow) :
  rename indicators (rename indicators cols) = rename indicators cols
  /\ normalize to_datetime {| raw_columns := rename indicators cols; raw_rows := rs |}
     = normalize to_datetime {| raw_columns := cols; raw_rows := rs |}.
Proof.
  split; [apply rename_indicators_idem|].
  unfold normalize. cbn [raw_rows raw_columns]. by rewrite rename_indicators_idem.
Qed.

(** ** Reading a click *)

Lemma selection_traverse cs cb :
  selection cs cb = traverse customdata0 (clicked_points cs cb).
Proof. by destruct cs, cb. Qed.

Lemma customdata0_Ok pt c :
  customdata0 pt = Ok c <-> exists rest, customdata pt = Some (c :: rest).
Proof.
  unfold customdata0. destruct (customdata pt) as [[|c' rest]|]; split;
    try congruence; try (by intros [? ?]).
  - intros E. inversion E. eauto.
  - intros [rest' E]. by inversion E.
Qed.

Lemma traverse_Raise_iff {A B} (f : A -> result B) (l : list A) e :
  traverse f l = Raise e
  <-> exists pre x post,
        l = pre ++ x :: post
        /\ Forall (fun y => exists b, f y = Ok b) pre
        /\ f x = Raise e.
Proof.
  induction l as [|x l IH]; cbn.
  - split; [done|]. intros (pre & y & post & E & _). by destruct pre.
  - split.
    + intros E. destruct (f x) as [b|e'] eqn:Ex; cbn in E.
      * destruct (traverse f l) as [ys|e'] eqn:Et; cbn in E; [done|].
        inversion E; subst.
        destruct (proj1 IH eq_refl) as (pre & y & post & -> & Hpre & Hy).
        exists (x :: pre), y, post. split; [done|]. split; [|done].
        constructor; eauto.
      * inversion E; subst. exists [], x, l. split; [done|]. by split.
    + intros (pre & y & post & E & Hpre & Hy).
      destruct pre as [|p pre]; cbn in E; inversion E; subst.
      * by rewrite Hy.
      * inversion Hpre as [|? ? [b Hb] Hpre']; subst. rewrite Hb. cbn.
        rewrite (proj2 IH); [done|]. exists pre, y, post. done.
Qed.

(** X10. The selection is extracted exactly when every point of the payload
    read has a non-empty custom-data list, and it then holds the first entry
    of each point's list, one per point and in the order of the points. *)
Theorem selection_succeeds_iff (cs cb : option clickData) (selected : list cell) :
  selection cs cb = Ok selected
  <-> Forall2 (fun pt c => exists rest, customdata pt = Some (c :: rest))
              (clicked_points cs cb) selected.
Proof.
  rewrite selection_traverse. split.
  - intros E. eapply Forall2_impl; [exact (traverse_inv _ _ _ E)|].
    intros pt c. apply customdata0_Ok.
  - intros Hall. apply traverse_intro. eapply Forall2_impl; [exact Hall|].
    intros pt c. apply customdata0_Ok.
Qed.

(** X11. When the extraction fails, the exception is that of the first
    point without a usable code: [KeyError] if that point has no custom
    data, [IndexError] if its list is empty.  The points after it are not
    looked at. *)
Theorem selection_raises_iff (cs cb : option clickData) (e : error) :
  selection cs cb = Raise e
  <-> exists pre pt post,
        clicked_points cs cb = pre ++ pt :: post
        /\ Forall (fun p => exists c rest, customdata p = Some (c :: rest)) pre
        /\ ((customdata pt = None /\ e = KeyError)
            \/ (customdata pt = Some [] /\ e = IndexError)).
Proof.
  rewrite selection_traverse, traverse_Raise_iff.
  assert (Hbad : forall pt, customdata0 pt = Raise e
                            <-> (customdata pt = None /\ e = KeyError)
                                \/ (customdata pt = Some [] /\ e = IndexError)).
  { intros pt. unfold customdata0. destruct (customdata pt) as [[|c rest]|]; split.
    - intros E. right. split; [done|congruence].
    - intros [[? _]|[_ ->]]; done.
    - done.
    - intros [[? _]|[? _]]; done.
    - intros E. left. split; [done|congruence].
    - intros [[_ ->]|[? _]]; done. }
  split.
  - intros (pre & pt & post & E & Hpre & Hpt). exists pre, pt, post.
    split; [done|]. split; [|by apply Hbad].
    eapply Forall_impl; [exact Hpre|]. intros p [c Hc]. exists c.
    by apply customdata0_Ok.
  - intros (pre & pt & post & E & Hpre & Hpt). exists pre, pt, post.
    split; [done|]. split; [|by apply Hbad].
    eapply Forall_impl; [exact Hpre|]. intros p (c & rest & Hc). exists c.
    apply customdata0_Ok. eauto.
Qed.

Example first_bad_point_decides :
  selection (click [Some [Str "AA"]; Some []; None]) None = Raise IndexError.
Proof. reflexivity. Qed.

(** ** Filtering by the selection *)

Lemma filter_filter_comm {A} (p q : A -> bool) (l : list A) :
  List.filter p (List.filter q l) = List.filter q (List.filter p l).
Proof.
  induction l as [|a l IH]; [done|]. cbn.
  destruct (p a) eqn:Ep, (q a) eqn:Eq; cbn; rewrite ?Ep, ?Eq; by rewrite IH.
Qed.

Lemma filter_filter_same {A} (p : A -> bool) (l : list A) :
  List.filter p (List.filter p l) = List.filter p l.
Proof.
  induction l as [|a l IH]; [done|]. cbn.
  destruct (p a) eqn:Ep; cbn; rewrite ?Ep; by rewrite IH.
Qed.

Lemma restrict_filter selected dff :
  selected <> [] ->
  restrict selected dff = List.filter (fun r => isin selected (iso2 r)) dff.
Proof. by destruct selected. Qed.

(** X12. The filtered table depends on which codes are selected, not on how
    often or in which order the payload lists them: a click that reports a
    country once per animation frame selects what a single report does. *)
Theorem restrict_depends_on_codes_only (selected selected' : list cell)
  (dff : list Row) :
  selected <> [] -> selected' <> [] ->
  (forall c, c ∈ selected <-> c ∈ selected') ->
  restrict selected dff = restrict selected' dff.
Proof.
  intros Hne Hne' Hsame. rewrite !restrict_filter by done.
  apply List.filter_ext. intros r. unfold isin.
  apply bool_decide_ext, Hsame.
Qed.

Lemma restrict_depends_on_codes_only_witness :
  restrict [Str "CC"; Str "AA"; Str "CC"] (rows df_three)
  = restrict [Str "AA"; Str "CC"] (rows df_three).
Proof.
  apply (restrict_depends_on_codes_only [Str "CC"; Str "AA"; Str "CC"]
           [Str "AA"; Str "CC"] (rows df_three)); [discriminate|discriminate|].
  intros c. rewrite !elem_of_cons. rewrite !elem_of_nil. tauto.
Defined.

(** X13. Filtering is idempotent, two filters may be applied in either
    order, and taking the end year's rows before or after filtering gives
    the same rows. *)
Theorem restrict_commutes (selected selected' : list cell) (dff : list Row) :
  restrict selected (restrict selected dff) = restrict selected dff
  /\ restrict selected (restrict selected' dff)
     = restrict selected' (restrict selected dff)
  /\ latest (restrict selected dff) = restrict selected (latest dff).
Proof.
  unfold restrict, latest.
  destruct selected as [|c sel], selected' as [|c' sel']; try done.
  - split; [apply filter_filter_same|]. split; [done|apply filter_filter_comm].
  - split; [apply filter_filter_same|].
    split; apply filter_filter_comm.
Qed.

(** X14. A non-empty selection none of whose codes occurs in the table
    leaves no row at all, unlike the empty selection, which leaves every
    row; the bar chart's frame is then empty. *)
Theorem foreign_selection_leaves_nothing `{S : Argsort} (selected : list cell)
  (df : Frame) (w : nat) :
  selected <> [] ->
  (forall r, r ∈ rows df -> iso2 r ∉ selected) ->
  column_index WATER (columns df) = Ok w ->
  restrict selected (rows df) = []
  /\ restrict [] (rows df) = rows df
  /\ water_frame (columns df) (restrict selected (rows df)) = Ok [].
Proof.
  intros Hne Hnone Hw.
  assert (Hr : restrict selected (rows df) = []).
  { rewrite restrict_filter by done.
    induction (rows df) as [|r l IH]; [done|]. cbn.
    destruct (isin selected (iso2 r)) eqn:E.
    - apply isin_elem in E. exfalso. apply (Hnone r); [by left|done].
    - apply IH. intros r' Hr'. apply Hnone. by right. }
  split; [done|]. split; [done|].
  rewrite Hr, (water_frame_Ok _ _ w Hw). cbn [latest List.filter water_columns map].
  pose proof (sort_values_desc_length (A := BarRow) b_value []) as Hlen.
  destruct (sort_values_desc b_value []); [done|discriminate].
Qed.

Lemma foreign_selection_leaves_nothing_witness :
  restrict [Str "ZZ"] (rows df_three) = []
  /\ restrict [] (rows df_three) = rows df_three
  /\ water_frame (S := stable_sorter) (columns df_three)
       (restrict [Str "ZZ"] (rows df_three)) = Ok [].
Proof.
  apply (foreign_selection_leaves_nothing (S := stable_sorter) [Str "ZZ"]
           df_three 2); [discriminate| |reflexivity].
  apply Forall_forall.
  repeat (constructor;
          [intros Hin; apply list_elem_of_singleton in Hin; discriminate|]).
  constructor.
Defined.

(** ** Columns the render needs *)

Lemma occurrences_elem (label : string) (cols : list string) i c :
  (i, c) ∈ List.filter (fun ic => bool_decide (snd ic = label)) (imap pair cols)
  <-> cols !! i = Some label /\ c = label.
Proof.
  rewrite list_elem_of_In, filter_In, <- list_elem_of_In, elem_of_lookup_imap.
  cbn. rewrite bool_decide_eq_true. split.
  - intros [(j & y & E & Hj) ->]. inversion E; subst. done.
  - intros [Hi ->]. split; [|done]. eauto.
Qed.

Lemma occurrences_NoDup (label : string) (cols : list string) :
  NoDup (List.filter (fun ic => bool_decide (snd ic = label)) (imap pair cols)).
Proof.
  eapply sublist_NoDup; [|apply filter_is_sublist]. apply (NoDup_fmap_1 fst).
  rewrite fmap_imap. rewrite (imap_ext _ (fun j _ => j)) by done.
  rewrite (imap_seq_0 cols (fun j => j)), list_fmap_id. apply NoDup_seq.
Qed.

(** A label names a column when it occurs exactly once. *)
Lemma column_index_Ok label cols i :
  column_index label cols = Ok i
  <-> cols !! i = Some label /\ forall j, cols !! j = Some label -> j = i.
Proof.
  unfold column_index.
  pose proof (occurrences_elem label cols) as Hel.
  pose proof (occurrences_NoDup label cols) as Hnd.
  destruct (List.filter _ (imap pair cols)) as [|[i0 c0] [|[i1 c1] occ]].
  - split; [done|]. intros [Hi _].
    assert (Hin : (i, label) ∈ @nil (nat * string)) by (by apply Hel).
    by apply elem_of_nil in Hin.
  - cbn. split.
    + intros E. inversion E; subst.
      destruct (proj1 (Hel i c0) ltac:(by left)) as [Hi ->]. split; [done|].
      intros j Hj. assert (Hin : (j, label) ∈ [(i, label)]) by (by apply Hel).
      apply list_elem_of_singleton in Hin. by inversion Hin.
    + intros [Hi _]. assert (Hin : (i, label) ∈ [(i0, c0)]) by (by apply Hel).
      apply list_elem_of_singleton in Hin. by inversion Hin.
  - split; [done|]. intros [_ Huniq]. exfalso.
    destruct (proj1 (Hel i0 c0) ltac:(by left)) as [H0 ->].
    destruct (proj1 (Hel i1 c1) ltac:(by right; left)) as [H1 ->].
    rewrite (Huniq _ H0), (Huniq _ H1) in Hnd.
    apply NoDup_cons in Hnd as [Hnotin _]. apply Hnotin. by left.
Qed.

Lemma column_index_absent label cols :
  column_index label cols = Raise KeyError <-> label ∉ cols.
Proof.
  unfold column_index. pose proof (occurrences_elem label cols) as Hel.
  destruct (List.filter _ (imap pair cols)) as [|[i0 c0] [|[i1 c1] occ]].
  - split; [|done]. intros _ Hin. apply list_elem_of_lookup in Hin as [i Hi].
    assert (Hin : (i, label) ∈ @nil (nat * string)) by (by apply Hel).
    by apply elem_of_nil in Hin.
  - split; [done|]. intros Hnotin. exfalso. apply Hnotin.
    destruct (proj1 (Hel i0 c0) ltac:(by left)) as [H0 _].
    by apply list_elem_of_lookup_2 in H0.
  - split; [done|]. intros Hnotin. exfalso. apply Hnotin.
    destruct (proj1 (Hel i0 c0) ltac:(by left)) as [H0 _].
    by apply list_elem_of_lookup_2 in H0.
Qed.

Lemma column_index_NoDup label cols :
  NoDup cols -> (exists i, column_index label cols = Ok i) <-> label ∈ cols.
Proof.
  intros Hnd. split.
  - intros [i Hi]. apply column_index_Ok in Hi as [Hi _].
    by apply list_elem_of_lookup_2 in Hi.
  - intros Hin. apply list_elem_of_lookup in Hin as [i Hi]. exists i.
    apply column_index_Ok. split; [done|]. intros j Hj.
    by apply (NoDup_lookup cols j i label).
Qed.

(** X15. On a table whose column labels are pairwise different and whose
    rows hold no dictionary as code or name, a render returns figures
    exactly when the selection can be extracted and the three indicator
    labels are among the columns; in every other case it raises. *)
Theorem update_figures_succeeds_iff `{S : Argsort} (df : Frame)
  (cs cb : option clickData) :
  NoDup (columns df) ->
  forallb groupable (rows df) = true ->
  (exists figs, update_figures df cs cb = Ok figs)
  <-> (exists selected, selection cs cb = Ok selected)
      /\ GDP ∈ columns df /\ LIFE ∈ columns df /\ WATER ∈ columns df.
Proof.
  intros Hnd Hgr. rewrite <- !(column_index_NoDup _ _ Hnd). split.
  - intros [[fig1 fig2] E].
    apply update_figures_inv in E
      as (sel & g & l & w & Hs & _ & _ & Hg & Hl & Hw & _). eauto 10.
  - intros ([sel Hs] & [g Hg] & [l Hl] & [w Hw]).
    destruct (update_figures_Ok df cs cb sel g l w Hs Hnd Hg Hl Hw) as (fig1 & _ & E);
      [by apply restrict_groupable|eauto].
Qed.

Lemma update_figures_succeeds_iff_witness :
  (exists figs,
     update_figures (S := stable_sorter) df_three (click [Some [Str "AA"]]) None
     = Ok figs)
  <-> (exists selected, selection (click [Some [Str "AA"]]) None = Ok selected)
      /\ GDP ∈ columns df_three /\ LIFE ∈ columns df_three
      /\ WATER ∈ columns df_three.
Proof.
  apply (update_figures_succeeds_iff (S := stable_sorter) df_three
           (click [Some [Str "AA"]]) None).
  - apply (bool_decide_unpack _). vm_compute. exact I.
  - reflexivity.
Defined.

(** X16. The import's preview looks at the GDP and life-expectancy columns
    only.  A table that has those but no clean-water column is imported
    without complaint.  When its column labels are pairwise different and
    its rows hold no dictionary as code or name, every render whose click
    can be read then builds the scatter chart and raises [KeyError] before
    the bar chart is built. *)
Theorem missing_water_column_fails_late `{S : Argsort} (df : Frame)
  (cs cb : option clickData) (selected : list cell) (g l : nat) :
  selection cs cb = Ok selected ->
  NoDup (columns df) ->
  forallb groupable (rows df) = true ->
  column_index GDP (columns df) = Ok g ->
  column_index LIFE (columns df) = Ok l ->
  WATER ∉ columns df ->
  print_head df = Ok tt
  /\ (exists fig1, scatter (columns df) (restrict selected (rows df)) = Ok fig1)
  /\ update_figures df cs cb = Raise KeyError.
Proof.
  intros Hs Hnd Hgr Hg Hl Hw.
  apply (restrict_groupable selected) in Hgr.
  destruct (scatter_Ok _ _ g l Hnd Hg Hl Hgr) as (fig1 & Hsc & _).
  split; [|split].
  - unfold print_head.
    apply column_index_Ok in Hg as [Hg _]. apply column_index_Ok in Hl as [Hl _].
    apply list_elem_of_lookup_2 in Hg, Hl.
    rewrite !bool_decide_eq_true_2 by done. done.
  - eauto.
  - apply column_index_absent in Hw.
    unfold update_figures. rewrite Hs. cbn. rewrite Hsc. cbn.
    unfold water_frame. by rewrite Hw.
Qed.

Lemma missing_water_column_fails_late_witness :
  print_head {| columns := [GDP; LIFE]; rows := rows df_three |} = Ok tt
  /\ (exists fig1,
        scatter [GDP; LIFE] (restrict [Str "AA"] (rows df_three)) = Ok fig1)
  /\ update_figures (S := stable_sorter)
       {| columns := [GDP; LIFE]; rows := rows df_three |}
       (click [Some [Str "AA"; Str "Aland"]]) None
     = Raise KeyError.
Proof.
  apply (missing_water_column_fails_late (S := stable_sorter)
           {| columns := [GDP; LIFE]; rows := rows df_three |}
           (click [Some [Str "AA"; Str "Aland"]]) None [Str "AA"] 0 1);
    try reflexivity.
  - apply (bool_decide_unpack _). vm_compute. exact I.
  - cbn. rewrite !elem_of_cons, elem_of_nil. intros [E|[E|[]]]; discriminate.
Defined.

(** ** The shape of the bar chart's frame *)

(** X17. The frame handed to the bar chart is the first 15 rows of this
    list: the end-year rows that report a value, ranked from the highest
    value down, followed by the end-year rows that report none, in table
    order. *)
Theorem bar_frame_is_ranked_then_unreported `{S : Argsort} (cols : list string)
  (dff : list Row) (w : nat) :
  column_index WATER cols = Ok w ->
  exists ranked,
    Permutation ranked (water_columns w (reported w dff))
    /\ StronglySorted (fun a b => descending (b_value a) (b_value b)) ranked
    /\ water_frame cols dff
       = Ok (firstn 15
               (ranked ++ water_columns w
                            (List.filter (isna (at_column w)) (latest dff)))).
Proof.
  intros Hw. rewrite (water_frame_Ok _ _ w Hw).
  destruct (sort_values_desc_ranked b_value (water_columns w (latest dff)))
    as (ranked & -> & Hperm & Hsorted & _).
  exists ranked. split; [|split; [done|]].
  - rewrite Hperm. unfold reported, isna.
    by rewrite (filter_water_columns
                  (fun x => negb match x with None => true | Some _ => false end) w).
  - unfold df_head. do 3 f_equal. unfold isna.
    apply (filter_water_columns
             (fun x => match x with None => true | Some _ => false end) w).
Qed.

Lemma bar_frame_is_ranked_then_unreported_witness :
  exists ranked,
    Permutation ranked (water_columns 2 (reported 2 (rows df_three)))
    /\ StronglySorted (fun a b => descending (b_value a) (b_value b)) ranked
    /\ water_frame (S := stable_sorter) (columns df_three) (rows df_three)
       = Ok (firstn 15
               (ranked ++ water_columns 2
                            (List.filter (isna (at_column 2)) (latest (rows df_three))))).
Proof.
  apply (bar_frame_is_ranked_then_unreported (S := stable_sorter)
           (columns df_three) (rows df_three) 2).
  reflexivity.
Defined.

(** X18. The rows shown are a top 15: together with the rows left out they
    make up the end-year rows, every row shown ranks at least as high as
    every row left out, rows are left out only when 15 are shown, and none
    is left out when the end year has at most 15 rows. *)
Theorem bar_frame_is_a_top_15 `{S : Argsort} (cols : list string)
  (dff : list Row) (w : nat) :
  column_index WATER cols = Ok w ->
  exists shown omitted,
    water_frame cols dff = Ok shown
    /\ Permutation (shown ++ omitted) (water_columns w (latest dff))
    /\ (forall b o, b ∈ shown -> o ∈ omitted -> descending (b_value b) (b_value o))
    /\ (omitted <> [] -> length shown = 15)
    /\ (length (latest dff) <= 15 -> omitted = []).
Proof.
  intros Hw. rewrite (water_frame_Ok _ _ w Hw).
  set (sorted := sort_values_desc b_value (water_columns w (latest dff))).
  assert (Hlen : length sorted = length (latest dff)).
  { unfold sorted. rewrite sort_values_desc_length. apply length_map. }
  exists (firstn 15 sorted), (skipn 15 sorted). unfold df_head.
  split; [done|]. split; [|split; [|split]].
  - rewrite firstn_skipn. apply sort_values_desc_perm.
  - intros b o Hb Ho.
    pose proof (sort_values_desc_sorted b_value (water_columns w (latest dff)))
      as Hsorted.
    fold sorted in Hsorted. rewrite <- (firstn_skipn 15 sorted) in Hsorted.
    by apply (StronglySorted_app_1_elem_of _ _ _ b o Hsorted).
  - intros Hne. rewrite length_firstn.
    destruct (decide (15 <= length sorted)) as [|Hshort]; [lia|].
    exfalso. apply Hne. apply skipn_all2. lia.
  - intros Hshort. apply skipn_all2. lia.
Qed.

Lemma bar_frame_is_a_top_15_witness :
  exists shown omitted,
    water_frame (S := stable_sorter) (columns df_three) (rows df_three) = Ok shown
    /\ Permutation (shown ++ omitted) (water_columns 2 (latest (rows df_three)))
    /\ (forall b o, b ∈ shown -> o ∈ omitted -> descending (b_value b) (b_value o))
    /\ (omitted <> [] -> length shown = 15)
    /\ (length (latest (rows df_three)) <= 15 -> omitted = []).
Proof.
  apply (bar_frame_is_a_top_15 (S := stable_sorter) (columns df_three)
           (rows df_three) 2).
  reflexivity.
Defined.

(** X19. When at least 15 end-year rows report a value, or all of them do,
    every row of the bar chart's frame reports one, and their number is
    min(15, number of reporting end-year rows). *)
Theorem bar_frame_reports_when_enough_do `{S : Argsort} (cols : list string)
  (dff : list Row) (w : nat) :
  column_index WATER cols = Ok w ->
  15 <= length (reported w dff) \/ reported w dff = latest dff ->
  exists shown,
    water_frame cols dff = Ok shown
    /\ length shown = Nat.min 15 (length (reported w dff))
    /\ Forall (fun b => b_value b <> None) shown.
Proof.
  intros Hw Henough. rewrite (water_frame_Ok _ _ w Hw).
  destruct (sort_values_desc_ranked b_value (water_columns w (latest dff)))
    as (ranked & -> & Hperm & _ & Hsome).
  assert (Hlen : length ranked = length (reported w dff)).
  { rewrite Hperm. unfold reported, isna.
    rewrite (filter_water_columns
               (fun x => negb match x with None => true | Some _ => false end) w).
    apply length_map. }
  assert (Hhead : df_head 15 (ranked ++ List.filter (isna b_value)
                                          (water_columns w (latest dff)))
                  = firstn 15 ranked).
  { unfold df_head. rewrite firstn_app. destruct Henough as [Hmany|Hall].
    - replace (15 - length ranked) with 0 by lia. cbn. apply app_nil_r.
    - unfold isna.
      rewrite (filter_water_columns
                 (fun x => match x with None => true | Some _ => false end) w).
      rewrite (filter_none_left (fun r => match at_column w r with
                                          | None => true | Some _ => false end)).
      + cbn. rewrite firstn_nil. apply app_nil_r.
      + exact Hall. }
  rewrite Hhead. eexists. split; [done|]. split.
  - by rewrite length_firstn, Hlen.
  - apply Forall_forall. intros b Hb.
    apply (sublist_subseteq _ _ (sublist_take _ _)) in Hb.
    rewrite Forall_forall in Hsome. destruct (Hsome b Hb) as [q Hq]. congruence.
Qed.

Lemma bar_frame_reports_when_enough_do_witness :
  exists shown,
    water_frame (S := stable_sorter) (columns df_three) (rows df_three) = Ok shown
    /\ length shown = Nat.min 15 (length (reported 2 (rows df_three)))
    /\ Forall (fun b => b_value b <> None) shown.
Proof.
  apply (bar_frame_reports_when_enough_do (S := stable_sorter) (columns df_three)
           (rows df_three) 2); [reflexivity|].
  right. reflexivity.
Defined.

(** ** Ties are all the sort leaves open *)

Lemma sort_values_desc_untied (S1 S2 : Argsort) {A} (key : A -> num) (l : list A) :
  untied key l ->
  sort_values_desc (S := S1) key l = sort_values_desc (S := S2) key l.
Proof.
  intros Huntied.
  destruct (sort_values_desc_ranked (S := S1) key l) as (r1 & -> & Hp1 & Hs1 & Hv1).
  destruct (sort_values_desc_ranked (S := S2) key l) as (r2 & -> & Hp2 & Hs2 & Hv2).
  f_equal.
  assert (Hin : forall r, Permutation r (List.filter (fun a => negb (isna key a)) l) ->
                          forall x, x ∈ r -> x ∈ l).
  { intros r Hp x Hx. rewrite Hp in Hx.
    apply list_elem_of_In, filter_In in Hx as [Hx _]. by apply list_elem_of_In. }
  apply (StronglySorted_unique_strong (fun a b => descending (key a) (key b)));
    [|done|done|by rewrite Hp1, Hp2].
  intros x y Hx Hy Hxy Hyx.
  rewrite Forall_forall in Hv1, Hv2.
  destruct (Hv1 x Hx) as [qx Ex], (Hv2 y Hy) as [qy Ey].
  rewrite Ex, Ey in Hxy, Hyx. cbn in Hxy, Hyx.
  apply (Huntied x y qx qy); eauto. by apply Qle_antisym.
Qed.

Lemma water_columns_restrict_elem w selected rs b :
  b ∈ water_columns w (latest (restrict selected rs)) ->
  b ∈ water_columns w (latest rs).
Proof.
  unfold water_columns, latest. intros Hb.
  apply list_elem_of_fmap in Hb as (r & -> & Hr). apply list_elem_of_fmap.
  exists r. split; [done|].
  apply list_elem_of_In, filter_In in Hr as [Hr Hy]. apply list_elem_of_In.
  apply filter_In. split; [|done]. unfold restrict in Hr.
  destruct selected; [done|]. by apply filter_In in Hr as [Hr _].
Qed.

(** X20. If no two end-year rows of the table hold the same clean-water
    value, the figures do not depend on the sorting algorithm: any two
    argsorts that meet numpy's contract give the same render for every
    click. *)
Theorem untied_values_fix_the_figures (S1 S2 : Argsort) (df : Frame) (w : nat) :
  column_index WATER (columns df) = Ok w ->
  untied b_value (water_columns w (latest (rows df))) ->
  forall cs cb,
    update_figures (S := S1) df cs cb = update_figures (S := S2) df cs cb.
Proof.
  intros Hw Huntied cs cb. unfold update_figures.
  destruct (selection cs cb) as [sel|]; [|done]. cbn.
  destruct (scatter (columns df) (restrict sel (rows df))) as [fig1|]; [|done]. cbn.
  rewrite !(water_frame_Ok _ _ w Hw).
  rewrite (sort_values_desc_untied S1 S2); [done|].
  intros x y qx qy Hx Hy. apply Huntied; by eapply water_columns_restrict_elem.
Qed.

Lemma untied_values_fix_the_figures_witness :
  update_figures (S := stable_sorter) df_three None None
  = update_figures (S := unstable_sorter) df_three None None.
Proof.
  refine (untied_values_fix_the_figures stable_sorter unstable_sorter df_three 2
            _ _ None None); [reflexivity|].
  intros x y qx qy Hx Hy Ex Ey Hq.
  let l := eval vm_compute in (water_columns 2 (latest (rows df_three))) in
  change (water_columns 2 (latest (rows df_three))) with l in Hx, Hy.
  rewrite !elem_of_cons, elem_of_nil in Hx, Hy.
  destruct Hx as [->|[->|[->|[]]]], Hy as [->|[->|[->|[]]]];
    try reflexivity; cbn in Ex, Ey; inversion Ex; inversion Ey; subst;
    exfalso; revert Hq; vm_compute; discriminate.
Defined.

(** ** From a drawn mark to the next render *)

(** X21. Clicking any point the scatter chart shows gives a render that
    succeeds, shows that point again, and shows nothing but that point's
    country in either chart, whatever the bar chart's payload holds. *)
Theorem clicking_a_point_shows_its_country `{S : Argsort} (df : Frame)
  (cs cb cb' : option clickData) (fig1 : Figure ScatterPoint)
  (fig2 : Figure BarRow) (p : ScatterPoint) :
  update_figures df cs cb = Ok (fig1, fig2) ->
  p ∈ fig_data fig1 ->
  exists fig1' fig2',
    update_figures df (click [Some (sp_customdata p)]) cb' = Ok (fig1', fig2')
    /\ p ∈ fig_data fig1'
    /\ Forall (fun p' => sp_animation_group p' = sp_animation_group p) (fig_data fig1')
    /\ Forall (fun b => b_iso2 b = sp_animation_group p) (fig_data fig2').
Proof.
  intros E Hp.
  apply update_figures_inv in E
    as (sel & g & l & w & _ & Hnd & Hgr & Hg & Hl & Hw & Hd1 & _).
  rewrite Hd1 in Hp. apply list_elem_of_fmap in Hp as (r & -> & Hr).
  apply drawn_elem in Hr as [Hr Hname].
  pose proof (restrict_code_groupable _ _ _ Hgr Hr) as Hgr'.
  apply restrict_elem in Hr. cbn [sp_customdata sp_animation_group scatter_point].
  assert (Hsel : selection (click [Some [iso2 r; country_name r]]) cb'
                 = Ok [iso2 r]) by done.
  destruct (figures_show_selected_only df _ cb' [iso2 r] g l w Hsel
              ltac:(discriminate) Hnd Hg Hl Hw Hgr') as (fig1' & fig2' & E' & H1 & H2).
  exists fig1', fig2'. split; [done|].
  apply update_figures_inv in E'
    as (sel' & g' & l' & w' & Hsel' & _ & _ & Hg' & Hl' & _ & Hd1' & _).
  rewrite Hsel in Hsel'. inversion Hsel'; subst sel'.
  rewrite Hg in Hg'. inversion Hg'; subst g'.
  rewrite Hl in Hl'. inversion Hl'; subst l'.
  split; [|split].
  - rewrite Hd1'. apply list_elem_of_fmap. exists r. split; [done|].
    apply drawn_elem. split; [|done]. by apply restrict_singleton_elem.
  - eapply Forall_impl; [exact H1|]. intros p' Hp'.
    by apply list_elem_of_singleton in Hp'.
  - eapply Forall_impl; [exact H2|]. intros b Hb.
    by apply list_elem_of_singleton in Hb.
Qed.

Lemma clicking_a_point_shows_its_country_witness :
  exists fig1 fig2 p,
    update_figures (S := stable_sorter) df_three None None = Ok (fig1, fig2)
    /\ p ∈ fig_data fig1
    /\ exists fig1' fig2',
         update_figures (S := stable_sorter) df_three
           (click [Some (sp_customdata p)]) None = Ok (fig1', fig2')
         /\ p ∈ fig_data fig1'
         /\ Forall (fun p' => sp_animation_group p' = sp_animation_group p)
                   (fig_data fig1')
         /\ Forall (fun b => b_iso2 b = sp_animation_group p) (fig_data fig2').
Proof.
  eexists _, _, _. split; [vm_compute; reflexivity|]. split; [by left|].
  eapply (clicking_a_point_shows_its_country (S := stable_sorter) df_three
            None None None); [vm_compute; reflexivity|by left].
Defined.

(** X22. Clicking any bar the bar chart shows, with no scatter payload,
    gives a render that succeeds, whose bar chart is not empty and whose
    charts show nothing but that bar's country. *)
Theorem clicking_a_bar_shows_its_country `{S : Argsort} (df : Frame)
  (cs cb : option clickData) (fig1 : Figure ScatterPoint)
  (fig2 : Figure BarRow) (b : BarRow) :
  update_figures df cs cb = Ok (fig1, fig2) ->
  b ∈ fig_data fig2 ->
  exists fig1' fig2',
    update_figures df None (click [Some (bar_customdata b)]) = Ok (fig1', fig2')
    /\ fig_data fig2' <> []
    /\ Forall (fun p' => sp_animation_group p' = b_iso2 b) (fig_data fig1')
    /\ Forall (fun b' => b_iso2 b' = b_iso2 b) (fig_data fig2').
Proof.
  intros E Hb.
  apply update_figures_inv in E
    as (sel & g & l & w & _ & Hnd & Hgr & Hg & Hl & Hw & _ & Hd2).
  rewrite Hd2 in Hb. unfold df_head in Hb.
  apply (sublist_subseteq _ _ (sublist_take _ _)) in Hb.
  rewrite (sort_values_desc_perm b_value _) in Hb.
  apply list_elem_of_fmap in Hb as (r & -> & Hr). cbn [b_iso2 bar_customdata].
  apply list_elem_of_In, filter_In in Hr as [Hr Hyear].
  apply list_elem_of_In in Hr.
  pose proof (restrict_code_groupable _ _ _ Hgr Hr) as Hgr'.
  apply restrict_elem in Hr.
  assert (Hsel : selection None (click [Some [iso2 r; country_name r]])
                 = Ok [iso2 r]) by done.
  destruct (figures_show_selected_only df None _ [iso2 r] g l w Hsel
              ltac:(discriminate) Hnd Hg Hl Hw Hgr') as (fig1' & fig2' & E' & H1 & H2).
  exists fig1', fig2'. split; [done|].
  apply update_figures_inv in E'
    as (sel' & g' & l' & w' & Hsel' & _ & _ & _ & _ & _ & _ & Hd2').
  rewrite Hsel in Hsel'. inversion Hsel'; subst sel'.
  split; [|split].
  - rewrite Hd2'. intros Hnil.
    assert (Hlen : length (df_head 15 (sort_values_desc b_value
                     (water_columns w' (latest (restrict [iso2 r] (rows df)))))) = 0)
      by (by rewrite Hnil).
    unfold df_head in Hlen.
    rewrite length_firstn, sort_values_desc_length in Hlen.
    unfold water_columns in Hlen. rewrite length_map in Hlen.
    assert (Hin : r ∈ latest (restrict [iso2 r] (rows df))).
    { apply list_elem_of_In, filter_In. split; [|done].
      apply list_elem_of_In. by apply restrict_singleton_elem. }
    destruct (latest (restrict [iso2 r] (rows df))); [by apply elem_of_nil in Hin|].
    cbn in Hlen. lia.
  - eapply Forall_impl; [exact H1|]. intros p' Hp'.
    by apply list_elem_of_singleton in Hp'.
  - eapply Forall_impl; [exact H2|]. intros b' Hb'.
    by apply list_elem_of_singleton in Hb'.
Qed.

Lemma clicking_a_bar_shows_its_country_witness :
  exists fig1 fig2 b,
    update_figures (S := stable_sorter) df_three None None = Ok (fig1, fig2)
    /\ b ∈ fig_data fig2
    /\ exists fig1' fig2',
         update_figures (S := stable_sorter) df_three None
           (click [Some (bar_customdata b)]) = Ok (fig1', fig2')
         /\ fig_data fig2' <> []
         /\ Forall (fun p' => sp_animation_group p' = b_iso2 b) (fig_data fig1')
         /\ Forall (fun b' => b_iso2 b' = b_iso2 b) (fig_data fig2').
Proof.
  eexists _, _, _. split; [vm_compute; reflexivity|]. split; [by left|].
  eapply (clicking_a_bar_shows_its_country (S := stable_sorter) df_three
            None None); [vm_compute; reflexivity|by left].
Defined.

(** ** What a unique key buys *)

Lemma restrict_sublist selected rs : sublist (restrict selected rs) rs.
Proof. unfold restrict. destruct selected; [done|]. apply filter_is_sublist. Qed.

Lemma latest_Year rs : Forall (fun r => Year r = end_year) (latest rs).
Proof.
  apply Forall_forall. intros r Hr. apply list_elem_of_In, filter_In in Hr as [_ Hr].
  by apply bool_decide_eq_true in Hr.
Qed.

Lemma end_year_codes_NoDup rs :
  Forall (fun r => Year r = end_year) rs ->
  NoDup (map obs_key rs) -> NoDup (map iso2 rs).
Proof.
  intros Hyear Hnd. apply (NoDup_fmap_1 (fun c => (c, end_year))).
  assert (Heq : (fun c => (c, end_year)) <$> map iso2 rs = map obs_key rs).
  { clear Hnd. induction Hyear as [|r rs Hr _ IH]; [done|]. cbn.
    rewrite <- IH. unfold obs_key. by rewrite Hr. }
  by rewrite Heq.
Qed.

(** X23. If (country_code, year) is unique in the table, then after every
    click each country has at most one point in each animation frame of the
    scatter chart and at most one bar in the bar chart. *)
Theorem unique_key_gives_one_mark_per_country `{S : Argsort} (df : Frame)
  (cs cb : option clickData) (fig1 : Figure ScatterPoint) (fig2 : Figure BarRow) :
  NoDup (map obs_key (rows df)) ->
  update_figures df cs cb = Ok (fig1, fig2) ->
  NoDup (map (fun p => (sp_animation_group p, sp_animation_frame p)) (fig_data fig1))
  /\ NoDup (map b_iso2 (fig_data fig2)).
Proof.
  intros Hkey E.
  apply update_figures_inv in E
    as (sel & g & l & w & _ & _ & _ & _ & _ & _ & Hd1 & Hd2).
  assert (Hsub : NoDup (map obs_key (restrict sel (rows df)))).
  { eapply sublist_NoDup; [exact Hkey|]. apply fmap_sublist, restrict_sublist. }
  split.
  - rewrite Hd1, map_map. eapply sublist_NoDup; [exact Hsub|].
    apply fmap_sublist. unfold drawn. apply filter_is_sublist.
  - rewrite Hd2. unfold df_head.
    eapply sublist_NoDup; [|apply fmap_sublist, sublist_take].
    rewrite (sort_values_desc_perm b_value _).
    unfold water_columns. rewrite map_map.
    apply (end_year_codes_NoDup _ (latest_Year (restrict sel (rows df)))).
    eapply sublist_NoDup; [exact Hsub|].
    apply fmap_sublist. unfold latest. apply filter_is_sublist.
Qed.

Lemma unique_key_gives_one_mark_per_country_witness :
  exists fig1 fig2,
    update_figures (S := stable_sorter) df_three None None = Ok (fig1, fig2)
    /\ NoDup (map (fun p => (sp_animation_group p, sp_animation_frame p))
                  (fig_data fig1))
    /\ NoDup (map b_iso2 (fig_data fig2)).
Proof.
  eexists _, _. split; [vm_compute; reflexivity|].
  eapply (unique_key_gives_one_mark_per_country (S := stable_sorter) df_three
            None None); [|vm_compute; reflexivity].
  apply (bool_decide_unpack _). vm_compute. exact I.
Defined.

(** X24. On a table that has the three indicator columns, pairwise
    different column labels and no dictionary as code or name in its rows,
    a click from which a non-empty selection is extracted gives figures in
    which every point of the scatter chart and every bar of the bar chart
    belongs to a selected country. *)
Theorem click_shows_selected_countries_only `{S : Argsort} (df : Frame)
  (cs cb : option clickData) (selected : list cell) (g l w : nat) :
  selection cs cb = Ok selected -> selected <> [] ->
  NoDup (columns df) ->
  forallb groupable (rows df) = true ->
  column_index GDP (columns df) = Ok g ->
  column_index LIFE (columns df) = Ok l ->
  column_index WATER (columns df) = Ok w ->
  exists fig1 fig2,
    update_figures df cs cb = Ok (fig1, fig2)
    /\ Forall (fun p => sp_animation_group p ∈ selected) (fig_data fig1)
    /\ Forall (fun b => b_iso2 b ∈ selected) (fig_data fig2).
Proof.
  intros Hs Hne Hnd Hgr Hg Hl Hw.
  apply (figures_show_selected_only df cs cb selected g l w); try done.
  by apply restrict_groupable.
Qed.

Lemma click_shows_selected_countries_only_witness :
  exists fig1 fig2,
    update_figures (S := stable_sorter) df_three
      (click [Some [Str "BB"; Str "Boria"]; Some [Str "CC"; Str "Cimar"]]) None
    = Ok (fig1, fig2)
    /\ Forall (fun p => sp_animation_group p ∈ [Str "BB"; Str "CC"]) (fig_data fig1)
    /\ Forall (fun b => b_iso2 b ∈ [Str "BB"; Str "CC"]) (fig_data fig2).
Proof.
  apply (click_shows_selected_countries_only (S := stable_sorter) df_three
           (click [Some [Str "BB"; Str "Boria"]; Some [Str "CC"; Str "Cimar"]]) None
           [Str "BB"; Str "CC"] 0 1 2);
    [reflexivity|discriminate| |reflexivity|reflexivity|reflexivity|reflexivity].
  apply (bool_decide_unpack _). vm_compute. exact I.
Defined.
